(** * ArrowFunctions: the Parquet glue between Chapel and Arrow

    A shallow embedding of [src/ArrowFunctions.cpp].  The C++ functions call
    into the Arrow and Parquet libraries; the libraries are modelled here by
    the data they expose to this file (a file is a schema and a sequence of
    row groups, a column chunk is a sequence of pages of fixed-width words),
    and the functions of [ArrowFunctions.cpp] are transcribed statement by
    statement on top of that model. *)

From Stdlib Require Import ZArith Lia.
From stdpp Require Import base option list strings gmap.

Local Open Scope Z_scope.

(** ** Outcomes of a C++ call *)

(** A call either returns, lets a C++ exception propagate to its caller,
    runs into undefined behaviour (an access outside an array, a signed
    overflow), or is still running when the fuel of the model is spent. *)
Inductive Outcome (A : Type) : Type :=
  | Returned (a : A)
  | Thrown (what : string)
  | Undefined
  | Diverged.
Arguments Returned {A} a.
Arguments Thrown {A} what.
Arguments Undefined {A}.
Arguments Diverged {A}.

Definition bind {A B : Type} (m : Outcome A) (k : A -> Outcome B) : Outcome B :=
  match m with
  | Returned a => k a
  | Thrown what => Thrown what
  | Undefined => Undefined
  | Diverged => Diverged
  end.

Notation "'do' x <~ m 'in' k" := (bind m (fun x => k))
  (at level 10, x pattern, m at level 100, k at level 200).

(** [arrow::Status] and [arrow::Result<T>]. *)
Inductive Status : Type :=
  | StatusOK
  | StatusError (message : string).

Inductive Result (A : Type) : Type :=
  | ResultOK (value : A)
  | ResultError (message : string).
Arguments ResultOK {A} value.
Arguments ResultError {A} message.

(** ** Fixed-width integers *)

Definition INT64_MIN : Z := - 2 ^ 63.
Definition INT64_MAX : Z := 2 ^ 63 - 1.

Definition in_int64 (z : Z) : bool := (INT64_MIN <=? z) && (z <=? INT64_MAX).

(** Signed 64-bit arithmetic: an overflow is undefined behaviour. *)
Definition checked64 (z : Z) : Outcome Z :=
  if in_int64 z then Returned z else Undefined.

(** A stored value is a fixed-width bit pattern, written as the unsigned
    number it spells.  [as_int64] and [as_int32] read a pattern as a signed
    two's complement integer, [as_uint64] is the pattern of an [int64_t]. *)
Definition as_uint64 (v : Z) : Z := v mod 2 ^ 64.

Definition as_int64 (w : Z) : Z :=
  let u := w mod 2 ^ 64 in if u <? 2 ^ 63 then u else u - 2 ^ 64.

Definition as_int32 (w : Z) : Z :=
  let u := w mod 2 ^ 32 in if u <? 2 ^ 31 then u else u - 2 ^ 32.

(** [(int64_t)x] for [int32_t x]: the conversion keeps the value. *)
Definition int64_of_int32 (x : Z) : Z := x.

(** ** The Parquet and Arrow data model *)

Module parquet_Type.
Inductive t : Set :=
  | BOOLEAN | INT32 | INT64 | INT96 | FLOAT | DOUBLE
  | BYTE_ARRAY | FIXED_LEN_BYTE_ARRAY.
#[global] Instance eq_dec : EqDecision t.
Proof. solve_decision. Defined.
End parquet_Type.

Module ConvertedType.
Inductive t : Set :=
  | NONE | UTF8 | DATE | TIMESTAMP_MILLIS | TIMESTAMP_MICROS
  | INT_32 | INT_64 | UINT_32 | UINT_64.
End ConvertedType.

Module arrow_Type.
Inductive t : Set :=
  | BOOL | INT32 | UINT32 | INT64 | UINT64 | FLOAT | DOUBLE
  | STRING | BINARY | FIXED_SIZE_BINARY | DATE32 | TIMESTAMP.
#[global] Instance eq_dec : EqDecision t.
Proof. solve_decision. Defined.
End arrow_Type.

(** [parquet::schema::PrimitiveNode]; every column here is a leaf of the
    root group, so the path of a column is its name. *)
Record PrimitiveNode : Type := {
  node_name : string;
  physical_type : parquet_Type.t;
  converted_type : ConvertedType.t
}.

(** A column chunk is its data pages; a page is the run of stored words. *)
Abbreviation Page := (list Z) (only parsing).
Abbreviation ColumnChunk := (list (list Z)) (only parsing).

Record RowGroup : Type := {
  rg_num_rows : Z;
  rg_columns : list ColumnChunk
}.

(** A Parquet file: the footer (schema, total number of rows) and the
    row groups in file order. *)
Record ParquetFile : Type := {
  pf_schema : list PrimitiveNode;
  pf_num_rows : Z;
  pf_row_groups : list RowGroup
}.

Inductive FileContent : Type :=
  | ParquetData (f : ParquetFile)
  | NotParquet (why : string).

(** The file system and the heap as the functions see them.
    [open_failure] is the message of the status that [ReadableFile::Open]
    gives for a path that cannot be opened; [malloc_succeeds] tells for which
    sizes, in bytes, [malloc] finds a block. *)
Record World : Type := {
  files : gmap string FileContent;
  open_failure : string -> string;
  malloc_succeeds : Z -> bool
}.

(** *** The library calls of the read side *)

(** [arrow::io::ReadableFile::Open]. *)
Definition ReadableFile_Open (w : World) (filename : string) : Result FileContent :=
  match files w !! filename with
  | Some infile => ResultOK infile
  | None => ResultError (open_failure w filename)
  end.

(** [parquet::arrow::OpenFile]: fails on what is not a Parquet file. *)
Definition arrow_OpenFile (infile : FileContent) : Result ParquetFile :=
  match infile with
  | ParquetData reader => ResultOK reader
  | NotParquet why => ResultError why
  end.

(** The Arrow type that [parquet::arrow] gives a Parquet leaf. *)
Definition arrow_type_of (node : PrimitiveNode) : arrow_Type.t :=
  match physical_type node, converted_type node with
  | parquet_Type.BOOLEAN, _ => arrow_Type.BOOL
  | parquet_Type.INT32, ConvertedType.DATE => arrow_Type.DATE32
  | parquet_Type.INT32, ConvertedType.UINT_32 => arrow_Type.UINT32
  | parquet_Type.INT32, _ => arrow_Type.INT32
  | parquet_Type.INT64, ConvertedType.UINT_64 => arrow_Type.UINT64
  | parquet_Type.INT64, ConvertedType.TIMESTAMP_MILLIS => arrow_Type.TIMESTAMP
  | parquet_Type.INT64, ConvertedType.TIMESTAMP_MICROS => arrow_Type.TIMESTAMP
  | parquet_Type.INT64, _ => arrow_Type.INT64
  | parquet_Type.INT96, _ => arrow_Type.TIMESTAMP
  | parquet_Type.FLOAT, _ => arrow_Type.FLOAT
  | parquet_Type.DOUBLE, _ => arrow_Type.DOUBLE
  | parquet_Type.BYTE_ARRAY, ConvertedType.UTF8 => arrow_Type.STRING
  | parquet_Type.BYTE_ARRAY, _ => arrow_Type.BINARY
  | parquet_Type.FIXED_LEN_BYTE_ARRAY, _ => arrow_Type.FIXED_SIZE_BINARY
  end.

(** [arrow::Field] and [FileReader::GetSchema]; every leaf of a flat schema
    of these types has an Arrow type, so the conversion gives a schema. *)
Record Field : Type := {
  field_name : string;
  field_type : arrow_Type.t
}.

Definition GetSchema (reader : ParquetFile) : list Field :=
  map (fun node => {| field_name := node_name node; field_type := arrow_type_of node |})
      (pf_schema reader).

(** The positions of the fields called [name], counted from [from]. *)
Fixpoint field_indices (name : string) (from : Z) (sc : list Field) : list Z :=
  match sc with
  | [] => []
  | f :: rest =>
      if decide (field_name f = name)
      then from :: field_indices name (from + 1) rest
      else field_indices name (from + 1) rest
  end.

(** [arrow::Schema::GetFieldIndex]: the index of the field of that name,
    -1 when there is none or more than one. *)
Definition GetFieldIndex (sc : list Field) (name : string) : Z :=
  match field_indices name 0 sc with
  | [idx] => idx
  | _ => -1
  end.

(** [parquet::SchemaDescriptor::ColumnIndex]: the index of the leaf with
    that path, -1 when there is none. *)
Fixpoint column_index_from (from : Z) (schema : list PrimitiveNode) (path : string) : Z :=
  match schema with
  | [] => -1
  | node :: rest =>
      if decide (node_name node = path) then from
      else column_index_from (from + 1) rest path
  end.

Definition ColumnIndex (schema : list PrimitiveNode) (path : string) : Z :=
  column_index_from 0 schema path.

(** A column reader: the physical type of its column and the pages not
    read yet (the first one is the page being read). *)
Record ColumnReader : Type := {
  cr_type : parquet_Type.t;
  cr_pages : list Page
}.

(** [RowGroupReader::Column]: throws when there is no such column. *)
Definition RowGroup_Column (schema : list PrimitiveNode) (rg : RowGroup) (idx : Z)
  : Outcome ColumnReader :=
  match schema !! Z.to_nat idx, rg_columns rg !! Z.to_nat idx with
  | Some node, Some chunk =>
      Returned {| cr_type := physical_type node; cr_pages := chunk |}
  | _, _ => Thrown "Invalid column index"
  end.

(** [static_cast] of the reader to [TypedColumnReader] of a physical type:
    using the result is undefined unless the reader is of that type. *)
Definition static_cast_reader (ty : parquet_Type.t) (column_reader : ColumnReader)
  : Outcome (list Page) :=
  if decide (cr_type column_reader = ty) then Returned (cr_pages column_reader)
  else Undefined.

(** Pages that are read to their end are left behind. *)
Fixpoint skip_exhausted (pages : list Page) : list Page :=
  match pages with
  | [] :: rest => skip_exhausted rest
  | _ => pages
  end.

(** [HasNext]: moves to the next page that holds a value, if any. *)
Definition HasNext (reader : list Page) : bool * list Page :=
  match skip_exhausted reader with
  | [] => (false, [])
  | pages => (true, pages)
  end.

(** [ReadBatch(batch_size, nullptr, nullptr, values, &values_read)] on a
    reader whose values decode with [decode]: up to [batch_size] values of
    the current page; the values read and the reader after the call.  A
    negative [batch_size] breaks the contract of the library. *)
Definition ReadBatch (decode : Z -> Z) (batch_size : Z) (reader : list Page)
  : Outcome (list Z * list Page) :=
  match skip_exhausted reader with
  | [] => Returned ([], [])
  | page :: rest =>
      if batch_size <? 0 then Undefined
      else
        let n := Z.to_nat (Z.min batch_size (Z.of_nat (length page))) in
        Returned (map decode (take n page), drop n page :: rest)
  end.

(** ** ArrowFunctions.h *)

(** The header defines the result codes as macros; the development is
    parametric in their values. *)
Class ArrowFunctions_h : Type := {
  ARROWINT64 : Z;
  ARROWINT32 : Z;
  ARROWUINT64 : Z;
  ARROWTIMESTAMP : Z;
  ARROWUNDEFINED : Z;
  ARROWERROR : Z
}.

(** ** The caller's array *)

(** [chpl_arr] is an array of [int64_t] owned by the caller; an access
    outside of it is undefined behaviour. *)

(** The library writing [vals] to [&chpl_ptr[i]]. *)
Definition store_block (chpl_ptr : list Z) (i : Z) (vals : list Z) : Outcome (list Z) :=
  match vals with
  | [] => Returned chpl_ptr
  | _ =>
      if (0 <=? i) && (i + Z.of_nat (length vals) <=? Z.of_nat (length chpl_ptr))
      then Returned (take (Z.to_nat i) chpl_ptr ++ vals
                       ++ drop (Z.to_nat i + length vals) chpl_ptr)
      else Undefined
  end.

(** [chpl_ptr[k] = v]. *)
Definition store (chpl_ptr : list Z) (k : Z) (v : Z) : Outcome (list Z) :=
  if (0 <=? k) && (k <? Z.of_nat (length chpl_ptr))
  then Returned (<[Z.to_nat k := v]> chpl_ptr)
  else Undefined.

(** ** The scratch array of the INT32 branch *)

(** [size_t] has 64 bits and [sizeof(int32_t)] is 4. *)
Definition as_size_t (z : Z) : Z := z mod 2 ^ 64.

Definition sizeof_int32_t : Z := 4.

(** [batchSize * sizeof(int32_t)]: [batchSize] is converted to [size_t]
    and the product wraps around. *)
Definition scratch_size (batchSize : Z) : Z :=
  as_size_t (as_size_t batchSize * sizeof_int32_t).

(** [malloc(size)]: the size in bytes of the block, [None] for the null
    pointer. *)
Definition malloc (w : World) (size : Z) : option Z :=
  if malloc_succeeds w size then Some size else None.

(** The library writing the values of a batch to [tmpArr]: undefined
    behaviour when [tmpArr] is null or the block is too small for them; a
    batch without values touches nothing. *)
Definition store_scratch (tmpArr : option Z) (values : list Z) : Outcome unit :=
  match values with
  | [] => Returned tt
  | _ =>
      match tmpArr with
      | None => Undefined
      | Some bytes =>
          if Z.of_nat (length values) * sizeof_int32_t <=? bytes then Returned tt
          else Undefined
      end
  end.

Section Functions.
Context {codes : ArrowFunctions_h}.

(** ** cpp_getNumRows *)

(** The result and what [*errMsg] is set to, if it is set. *)
Definition cpp_getNumRows (w : World) (filename : string) : Z * option string :=
  match ReadableFile_Open w filename with
  | ResultError message => (ARROWERROR, Some message)
  | ResultOK infile =>
      match arrow_OpenFile infile with
      | ResultError message => (ARROWERROR, Some message)
      | ResultOK reader => (pf_num_rows reader, None)
      end
  end.

(** ** cpp_getType *)

Definition cpp_getType (w : World) (filename colname : string) : Z * option string :=
  match ReadableFile_Open w filename with
  | ResultError message => (ARROWERROR, Some message)
  | ResultOK infile =>
      match arrow_OpenFile infile with
      | ResultError message => (ARROWERROR, Some message)
      | ResultOK reader =>
          let sc := GetSchema reader in
          let idx := GetFieldIndex sc colname in
          if idx =? -1 then
            let msg := "Dataset: " +:+ colname +:+ " does not exist in file: " +:+ filename in
            (ARROWERROR, Some msg)
          else
            match sc !! Z.to_nat idx with
            | None => (ARROWUNDEFINED, None) (* not reached: [idx] is an index of [sc] *)
            | Some field =>
                let myType := field_type field in
                if decide (myType = arrow_Type.INT64) then (ARROWINT64, None)
                else if decide (myType = arrow_Type.INT32) then (ARROWINT32, None)
                else if decide (myType = arrow_Type.UINT64) then (ARROWUINT64, None)
                else if decide (myType = arrow_Type.TIMESTAMP) then (ARROWTIMESTAMP, None)
                else (ARROWUNDEFINED, None)
            end
  end
  end.

(** ** cpp_readColumnByName *)

(** The loop [while (reader->HasNext())] of the INT64 branch: the
    library writes each batch straight into [&chpl_ptr[i]]. *)
Fixpoint read_batches_int64 (fuel : nat) (batchSize : Z) (reader : list Page)
    (chpl_ptr : list Z) (i : Z) : Outcome (list Z * Z) :=
  match fuel with
  | O => Diverged
  | S fuel' =>
      let '(more, reader) := HasNext reader in
      if more then
        do (values, reader) <~ ReadBatch as_int64 batchSize reader in
        do chpl_ptr <~ store_block chpl_ptr i values in
        let values_read := Z.of_nat (length values) in
        do i <~ checked64 (i + values_read) in
        read_batches_int64 fuel' batchSize reader chpl_ptr i
      else Returned (chpl_ptr, i)
  end.

(** The same loop in the UINT64 branch. *)
Fixpoint read_batches_uint64 (fuel : nat) (batchSize : Z) (reader : list Page)
    (chpl_ptr : list Z) (i : Z) : Outcome (list Z * Z) :=
  match fuel with
  | O => Diverged
  | S fuel' =>
      let '(more, reader) := HasNext reader in
      if more then
        do (values, reader) <~ ReadBatch as_int64 batchSize reader in
        do chpl_ptr <~ store_block chpl_ptr i values in
        let values_read := Z.of_nat (length values) in
        do i <~ checked64 (i + values_read) in
        read_batches_uint64 fuel' batchSize reader chpl_ptr i
      else Returned (chpl_ptr, i)
  end.

(** [for (j = 0; j < values_read; j++) chpl_ptr[i+j] = (int64_t)tmpArr[j]];
    [tmpArr] holds the [values_read] values of the batch from [j] on. *)
Fixpoint widen_batch (chpl_ptr : list Z) (i j : Z) (tmpArr : list Z) : Outcome (list Z) :=
  match tmpArr with
  | [] => Returned chpl_ptr
  | x :: tmpArr =>
      do chpl_ptr <~ store chpl_ptr (i + j) (int64_of_int32 x) in
      widen_batch chpl_ptr i (j + 1) tmpArr
  end.

(** The loop of the INT32 branch: each batch goes to [tmpArr], the block
    that [malloc(batchSize * sizeof(int32_t))] gave, and from there to the
    caller's array. *)
Fixpoint read_batches_int32 (fuel : nat) (batchSize : Z) (tmpArr : option Z)
    (reader : list Page) (chpl_ptr : list Z) (i : Z) : Outcome (list Z * Z) :=
  match fuel with
  | O => Diverged
  | S fuel' =>
      let '(more, reader) := HasNext reader in
      if more then
        do (values, reader) <~ ReadBatch as_int32 batchSize reader in
        do _ <~ store_scratch tmpArr values in
        let values_read := Z.of_nat (length values) in
        do chpl_ptr <~ widen_batch chpl_ptr i 0 values in
        do i <~ checked64 (i + values_read) in
        read_batches_int32 fuel' batchSize tmpArr reader chpl_ptr i
      else Returned (chpl_ptr, i)
  end.

(** The body of the loop over the row groups, from the row group on.  In
    the INT32 branch [tmpArr] is allocated anew for each row group and freed
    after its loop; the result of [malloc] is not checked. *)
Definition read_row_group (w : World) (fuel : nat) (ty : Z) (schema : list PrimitiveNode)
    (filename colname : string) (batchSize : Z) (row_group_reader : RowGroup)
    (chpl_arr : list Z) (i : Z) : Outcome (string + list Z * Z) :=
  let idx := ColumnIndex schema colname in
  if idx <? 0 then
    let msg := "Dataset: " +:+ colname +:+ " does not exist in file: " +:+ filename in
    Returned (inl msg)
  else
    do column_reader <~ RowGroup_Column schema row_group_reader idx in
    do written <~
      (if ty =? ARROWINT64 then
         do reader <~ static_cast_reader parquet_Type.INT64 column_reader in
         read_batches_int64 fuel batchSize reader chpl_arr i
       else if ty =? ARROWUINT64 then
         do reader <~ static_cast_reader parquet_Type.INT64 column_reader in
         read_batches_uint64 fuel batchSize reader chpl_arr i
       else
         do reader <~ static_cast_reader parquet_Type.INT32 column_reader in
         let tmpArr := malloc w (scratch_size batchSize) in
         read_batches_int32 fuel batchSize tmpArr reader chpl_arr i) in
    Returned (inr written).

(** [for (int r = 0; r < num_row_groups; r++)], on the row groups from
    [r] on.  The result is the value returned, the caller's array and the
    message left in [*errMsg]. *)
Fixpoint read_row_groups (w : World) (fuel : nat) (ty : Z) (schema : list PrimitiveNode)
    (filename colname : string) (batchSize : Z) (row_groups : list RowGroup)
    (chpl_arr : list Z) (i : Z) (errMsg : option string)
    : Outcome (Z * list Z * option string) :=
  match row_groups with
  | [] => Returned (0, chpl_arr, errMsg)
  | row_group_reader :: row_groups =>
      do step <~ read_row_group w fuel ty schema filename colname batchSize
                   row_group_reader chpl_arr i in
      match step with
      | inl msg => Returned (ARROWERROR, chpl_arr, Some msg)
      | inr (chpl_arr, i) =>
          read_row_groups w fuel ty schema filename colname batchSize row_groups
            chpl_arr i errMsg
      end
  end.

(** [parquet::ParquetFileReader::OpenFile]: throws when the file cannot
    be opened or is not a Parquet file. *)
Definition ParquetFileReader_OpenFile (w : World) (filename : string) : Outcome ParquetFile :=
  match ReadableFile_Open w filename with
  | ResultError message => Thrown message
  | ResultOK infile =>
      match arrow_OpenFile infile with
      | ResultError message => Thrown message
      | ResultOK parquet_reader => Returned parquet_reader
      end
  end.

Definition cpp_readColumnByName (w : World) (fuel : nat) (filename : string)
    (chpl_arr : list Z) (colname : string) (numElems batchSize : Z)
    : Outcome (Z * list Z * option string) :=
  let '(ty, errMsg) := cpp_getType w filename colname in
  if (ty =? ARROWINT64) || (ty =? ARROWINT32) || (ty =? ARROWUINT64) then
    do parquet_reader <~ ParquetFileReader_OpenFile w filename in
    read_row_groups w fuel ty (pf_schema parquet_reader) filename colname batchSize
      (pf_row_groups parquet_reader) chpl_arr 0 errMsg
  else Returned (ARROWUNDEFINED, chpl_arr, errMsg).

End Functions.

(** ** The write side *)

(** What the output side of the libraries does during one call: whether
    [FileOutputStream::Open] can open a path, how the column writer cuts
    the words of a batch into data pages, whether the batch of the k-th row
    group can be encoded, and whether the footer can be written
    ([ParquetFileWriter::Close]) and the stream closed
    ([FileOutputStream::Close]). *)
Record OutputSide : Type := {
  out_open : string -> Status;
  paginate : list Z -> list Page;
  encode_status : nat -> Status;
  writer_close : Status;
  out_close : Status
}.

(** [PARQUET_ASSIGN_OR_THROW(out_file, FileClass::Open(filename))]: a
    status that is not OK is thrown as a [ParquetException]. *)
Definition PARQUET_ASSIGN_OR_THROW (st : Status) : Outcome unit :=
  match st with
  | StatusOK => Returned tt
  | StatusError message => Thrown message
  end.

(** A library call that reports its failure by an exception. *)
Definition or_throw (st : Status) : Outcome unit :=
  match st with
  | StatusOK => Returned tt
  | StatusError message => Thrown message
  end.

(** [int64_writer->WriteBatch(num_values, nullptr, nullptr, &chpl_ptr[i])]
    in the k-th row group: reads [num_values] values from [&chpl_ptr[i]];
    the column chunk written, with the number of its rows.  Nothing is read
    or written when [num_values] is not positive. *)
Definition WriteBatch (dev : OutputSide) (k : nat) (num_values : Z)
    (chpl_ptr : list Z) (i : Z) : Outcome (Z * ColumnChunk) :=
  if num_values <=? 0 then Returned (0, [])
  else if (0 <=? i) && (i + num_values <=? Z.of_nat (length chpl_ptr)) then
    do _ <~ or_throw (encode_status dev k) in
    let values := take (Z.to_nat num_values) (drop (Z.to_nat i) chpl_ptr) in
    Returned (Z.of_nat (length values), paginate dev (map as_uint64 values))
  else Undefined.

(** The footer that [ParquetFileWriter::Close] writes. *)
Definition total_rows (row_groups : list RowGroup) : Z :=
  foldr (fun rg n => rg_num_rows rg + n) 0 row_groups.

Definition close_file (schema : list PrimitiveNode) (row_groups : list RowGroup) : ParquetFile :=
  {| pf_schema := schema;
     pf_num_rows := total_rows row_groups;
     pf_row_groups := row_groups |}.

(** What is left at a path when the stream could not be closed. *)
Definition incomplete_file : FileContent :=
  NotParquet "Parquet file size is 0 bytes".

Definition put_file (w : World) (filename : string) (content : FileContent) : World :=
  {| files := <[filename := content]> (files w);
     open_failure := open_failure w;
     malloc_succeeds := malloc_succeeds w |}.

Section Writer.
Context {codes : ArrowFunctions_h}.

(** [batchSize] of one round of the loop. *)
Definition next_batchSize (rowGroupSize numLeft : Z) : Z :=
  if numLeft <? rowGroupSize then numLeft else rowGroupSize.

(** [while (numLeft > 0)]: [written] is the row groups appended so far. *)
Fixpoint write_row_groups (fuel : nat) (dev : OutputSide) (chpl_ptr : list Z)
    (rowGroupSize i numLeft : Z) (written : list RowGroup) : Outcome (list RowGroup) :=
  match fuel with
  | O => Diverged
  | S fuel' =>
      if 0 <? numLeft then
        let batchSize := next_batchSize rowGroupSize numLeft in
        do (rows, chunk) <~ WriteBatch dev (length written) batchSize chpl_ptr i in
        let written := written ++ [{| rg_num_rows := rows; rg_columns := [chunk] |}] in
        do numLeft <~ checked64 (numLeft - batchSize) in
        do i <~ checked64 (i + batchSize) in
        write_row_groups fuel' dev chpl_ptr rowGroupSize i numLeft written
      else Returned written
  end.

(** The result is the value returned, the file system after the call and
    the message left in [*errMsg]. *)
Definition cpp_writeColumnToParquet (dev : OutputSide) (w : World) (fuel : nat)
    (filename : string) (chpl_arr : list Z) (colnum : Z) (dsetname : string)
    (numelems rowGroupSize dtype : Z) : Outcome (Z * World * option string) :=
  let chpl_ptr := chpl_arr in
  do _ <~ PARQUET_ASSIGN_OR_THROW (out_open dev filename) in
  let fields :=
    if dtype =? 1 then
      [{| node_name := dsetname; physical_type := parquet_Type.INT64;
          converted_type := ConvertedType.NONE |}]
    else
      [{| node_name := dsetname; physical_type := parquet_Type.INT64;
          converted_type := ConvertedType.UINT_64 |}] in
  do row_groups <~ write_row_groups fuel dev chpl_ptr rowGroupSize 0 numelems [] in
  do _ <~ or_throw (writer_close dev) in
  match out_close dev with
  | StatusError message =>
      Returned (ARROWERROR, put_file w filename incomplete_file, Some message)
  | StatusOK =>
      Returned (0, put_file w filename (ParquetData (close_file fields row_groups)), None)
  end.

End Writer.

(** ** C functions *)

(** The functions that Chapel calls: each hands its arguments to the C++
    function of the same name. *)
Section CFunctions.
Context {codes : ArrowFunctions_h}.

Definition c_getNumRows (w : World) (chpl_str : string) : Z * option string :=
  cpp_getNumRows w chpl_str.

Definition c_readColumnByName (w : World) (fuel : nat) (filename : string)
    (chpl_arr : list Z) (colname : string) (numElems batchSize : Z)
    : Outcome (Z * list Z * option string) :=
  cpp_readColumnByName w fuel filename chpl_arr colname numElems batchSize.

Definition c_getType (w : World) (filename colname : string) : Z * option string :=
  cpp_getType w filename colname.

Definition c_writeColumnToParquet (dev : OutputSide) (w : World) (fuel : nat)
    (filename : string) (chpl_arr : list Z) (colnum : Z) (dsetname : string)
    (numelems rowGroupSize dtype : Z) : Outcome (Z * World * option string) :=
  cpp_writeColumnToParquet dev w fuel filename chpl_arr colnum dsetname
    numelems rowGroupSize dtype.

End CFunctions.

(** ** Concrete instances *)

(** An assignment of the codes in which the integer types are told apart. *)
Definition example_header : ArrowFunctions_h :=
  {| ARROWINT64 := 0; ARROWINT32 := 1; ARROWUINT64 := 2;
     ARROWTIMESTAMP := 0; ARROWUNDEFINED := -1; ARROWERROR := -1 |}.

(** An output side on which nothing fails and every batch is one page. *)
Definition sound_output : OutputSide :=
  {| out_open := fun _ => StatusOK;
     paginate := fun words => [words];
     encode_status := fun _ => StatusOK;
     writer_close := StatusOK;
     out_close := StatusOK |}.

(** An output side that cannot open ["/nonexistent/out.parquet"]. *)
Definition readonly_output : OutputSide :=
  {| out_open := fun _ => StatusError "Failed to open local file";
     paginate := fun words => [words];
     encode_status := fun _ => StatusOK;
     writer_close := StatusOK;
     out_close := StatusOK |}.

Definition empty_world : World :=
  {| files := ∅;
     open_failure := fun path => "Failed to open local file";
     malloc_succeeds := fun size => size <=? 2 ^ 30 |}.

(** An output side on which the footer cannot be written. *)
Definition full_disk_output : OutputSide :=
  {| out_open := fun _ => StatusOK;
     paginate := fun words => [words];
     encode_status := fun _ => StatusOK;
     writer_close := StatusError "No space left on device";
     out_close := StatusOK |}.

(** The file system that a call of the writer leaves. *)
Definition world_after (o : Outcome (Z * World * option string)) : World :=
  match o with
  | Returned (_, w, _) => w
  | _ => empty_world
  end.

(** A file system that holds one file. *)
Definition world_of (path : string) (content : FileContent) : World :=
  put_file empty_world path content.

(** The same files, and a heap on which [malloc] finds nothing. *)
Definition out_of_memory (w : World) : World :=
  {| files := files w;
     open_failure := open_failure w;
     malloc_succeeds := fun _ => false |}.

(** A file with an INT32 column ["a"]: two pages in one row group, one
    page in another. *)
Definition int32_file : ParquetFile :=
  {| pf_schema := [{| node_name := "a"; physical_type := parquet_Type.INT32;
                      converted_type := ConvertedType.NONE |}];
     pf_num_rows := 4;
     pf_row_groups :=
       [{| rg_num_rows := 3; rg_columns := [[[4294967295; 7]; [2147483648]]] |};
        {| rg_num_rows := 1; rg_columns := [[[2147483647]]] |}] |}.

(** A file with a UINT64 column ["u"] after an INT64 column ["s"]. *)
Definition uint64_file : ParquetFile :=
  {| pf_schema := [{| node_name := "s"; physical_type := parquet_Type.INT64;
                      converted_type := ConvertedType.NONE |};
                   {| node_name := "u"; physical_type := parquet_Type.INT64;
                      converted_type := ConvertedType.UINT_64 |}];
     pf_num_rows := 2;
     pf_row_groups :=
       [{| rg_num_rows := 2;
           rg_columns := [[[1; 2]]; [[18446744073709551615; 9223372036854775808]]] |}] |}.

(** A file with a DOUBLE column ["x"]. *)
Definition double_file : ParquetFile :=
  {| pf_schema := [{| node_name := "x"; physical_type := parquet_Type.DOUBLE;
                      converted_type := ConvertedType.NONE |}];
     pf_num_rows := 1;
     pf_row_groups := [{| rg_num_rows := 1; rg_columns := [[[4607182418800017408]]] |}] |}.

(** An output side on which the stream cannot be closed. *)
Definition failing_close_output : OutputSide :=
  {| out_open := fun _ => StatusOK;
     paginate := fun words => [words];
     encode_status := fun _ => StatusOK;
     writer_close := StatusOK;
     out_close := StatusError "Input/output error" |}.

(** A file with an INT64 column ["k"] and a timestamp column ["t"], in
    two row groups; the chunk of ["k"] in the first one has three pages,
    one of them without values. *)
Definition int64_file : ParquetFile :=
  {| pf_schema := [{| node_name := "k"; physical_type := parquet_Type.INT64;
                      converted_type := ConvertedType.NONE |};
                   {| node_name := "t"; physical_type := parquet_Type.INT64;
                      converted_type := ConvertedType.TIMESTAMP_MICROS |}];
     pf_num_rows := 4;
     pf_row_groups :=
       [{| rg_num_rows := 3;
           rg_columns := [[[18446744073709551615; 3]; []; [4]]; [[10; 20; 30]]] |};
        {| rg_num_rows := 1; rg_columns := [[[5]]; [[40]]] |}] |}.

(** ** Specification vocabulary *)

(** Nothing fails on the output side while [filename] is written, and the
    pages of a batch hold its words in order. *)
Definition output_ok (dev : OutputSide) (filename : string) : Prop :=
  out_open dev filename = StatusOK
  /\ (forall k, encode_status dev k = StatusOK)
  /\ writer_close dev = StatusOK
  /\ out_close dev = StatusOK
  /\ (forall words, concat (paginate dev words) = words).

(** The row groups that hold [values] in runs of [n] values. *)
Inductive Partitioned (dev : OutputSide) (n : nat) : list Z -> list RowGroup -> Prop :=
  | partitioned_nil : Partitioned dev n [] []
  | partitioned_cons values row_groups :
      values <> [] ->
      Partitioned dev n (drop n values) row_groups ->
      Partitioned dev n values
        ({| rg_num_rows := Z.of_nat (length (take n values));
            rg_columns := [paginate dev (map as_uint64 (take n values))] |}
           :: row_groups).

(** The words of column [idx] of a row group, and of a file. *)
Definition chunk_words (idx : nat) (rg : RowGroup) : list Z :=
  match rg_columns rg !! idx with
  | Some chunk => concat chunk
  | None => []
  end.

Definition column_words (idx : nat) (row_groups : list RowGroup) : list Z :=
  concat (map (chunk_words idx) row_groups).

(** The values of the first column of a row group, as [int64_t]. *)
Definition group_values (rg : RowGroup) : list Z := map as_int64 (chunk_words 0 rg).

(** The shape that the three batch loops of the reader share: [decode]
    reads a stored word, [deliver] brings the values of a batch to the
    caller's array at [i]. *)
Fixpoint batches_loop (decode : Z -> Z)
    (deliver : list Z -> Z -> list Z -> Outcome (list Z))
    (fuel : nat) (batchSize : Z) (reader : list Page) (chpl_ptr : list Z) (i : Z)
    : Outcome (list Z * Z) :=
  match fuel with
  | O => Diverged
  | S fuel' =>
      let '(more, reader) := HasNext reader in
      if more then
        do (values, reader) <~ ReadBatch decode batchSize reader in
        do chpl_ptr <~ deliver chpl_ptr i values in
        do i <~ checked64 (i + Z.of_nat (length values)) in
        batches_loop decode deliver fuel' batchSize reader chpl_ptr i
      else Returned (chpl_ptr, i)
  end.

(** How the reader treats a column: the code it dispatches on, the
    physical type it casts the column reader to, and how a stored word
    becomes a value. *)
Inductive Decoding {codes : ArrowFunctions_h} : Z -> parquet_Type.t -> (Z -> Z) -> Prop :=
  | decoding_int64 : Decoding ARROWINT64 parquet_Type.INT64 as_int64
  | decoding_uint64 : Decoding ARROWUINT64 parquet_Type.INT64 as_int64
  | decoding_int32 :
      ARROWINT32 <> ARROWINT64 -> ARROWINT32 <> ARROWUINT64 ->
      Decoding ARROWINT32 parquet_Type.INT32 as_int32.

(** What bringing a batch to the caller's array does, whichever way it is
    done: a batch that fits replaces what was there, unless the way there is
    undefined behaviour already; a batch that reaches beyond the end of the
    array is undefined behaviour; a batch without values touches nothing. *)
Definition delivers (deliver : list Z -> Z -> list Z -> Outcome (list Z)) : Prop :=
  (forall pre hole post values : list Z,
     length hole = length values ->
     deliver (pre ++ hole ++ post) (Z.of_nat (length pre)) values
     = Returned (pre ++ values ++ post)
     \/ deliver (pre ++ hole ++ post) (Z.of_nat (length pre)) values = Undefined)
  /\ (forall pre rest values : list Z,
        (length rest < length values)%nat ->
        deliver (pre ++ rest) (Z.of_nat (length pre)) values = Undefined)
  /\ (forall (chpl_ptr : list Z) (i : Z), deliver chpl_ptr i [] = Returned chpl_ptr).

(** The INT32 branch bringing a batch to the caller's array: through
    [tmpArr], then value by value. *)
Definition deliver_int32 (tmpArr : option Z) (chpl_ptr : list Z) (i : Z)
    (values : list Z) : Outcome (list Z) :=
  do _ <~ store_scratch tmpArr values in
  widen_batch chpl_ptr i 0 values.

(** [malloc] gives a scratch array with room for a whole batch. *)
Definition scratch_fits (w : World) (batchSize : Z) : Prop :=
  exists bytes,
    malloc w (scratch_size batchSize) = Some bytes
    /\ batchSize * sizeof_int32_t <= bytes.

(** [sub] occurs in [s]. *)
Definition contains (s sub : string) : Prop :=
  exists before after, s = before +:+ sub +:+ after.

(** ** Fixed-width integers *)

Lemma in_int64_bounds z : in_int64 z = true <-> - 2 ^ 63 <= z <= 2 ^ 63 - 1.
Proof. unfold in_int64, INT64_MIN, INT64_MAX. lia. Qed.

Lemma checked64_in z : - 2 ^ 63 <= z <= 2 ^ 63 - 1 -> checked64 z = Returned z.
Proof.
  intros H. unfold checked64. apply in_int64_bounds in H. now rewrite H.
Qed.

Lemma as_int64_as_uint64 v : in_int64 v = true -> as_int64 (as_uint64 v) = v.
Proof.
  intros H%in_int64_bounds. unfold as_int64, as_uint64.
  rewrite Z.mod_mod by lia.
  destruct (Z.neg_nonneg_cases v) as [Hneg | Hpos].
  - assert (v mod 2 ^ 64 = v + 2 ^ 64) as ->
      by (symmetry; apply (Z.mod_unique _ _ (-1)); lia).
    destruct (Z.ltb_spec (v + 2 ^ 64) (2 ^ 63)); lia.
  - rewrite Z.mod_small by lia.
    destruct (Z.ltb_spec v (2 ^ 63)); lia.
Qed.

Lemma as_uint64_as_int64 w : 0 <= w < 2 ^ 64 -> as_uint64 (as_int64 w) = w.
Proof.
  intros H. unfold as_int64, as_uint64.
  rewrite (Z.mod_small w) by lia.
  destruct (Z.ltb_spec w (2 ^ 63)).
  - apply Z.mod_small. lia.
  - symmetry. apply (Z.mod_unique _ _ (-1)); lia.
Qed.

Lemma map_as_int64_as_uint64 (values : list Z) :
  Forall (fun v => in_int64 v = true) values ->
  map as_int64 (map as_uint64 values) = values.
Proof.
  induction 1 as [| v values Hv _ IH]; simpl; [reflexivity |].
  now rewrite as_int64_as_uint64, IH.
Qed.

Lemma map_as_uint64_as_int64 (words : list Z) :
  Forall (fun word => 0 <= word < 2 ^ 64) words ->
  map as_uint64 (map as_int64 words) = words.
Proof.
  induction 1 as [| word words Hword _ IH]; simpl; [reflexivity |].
  now rewrite as_uint64_as_int64, IH.
Qed.

(** ** The loop of the writer *)

Lemma drop_take_sub {A} (l : list A) (n m : nat) :
  drop n (take m l) = take (m - n) (drop n l).
Proof.
  destruct (decide (n <= m)%nat) as [Hle | Hgt].
  - rewrite take_drop_commute. f_equal. f_equal. lia.
  - replace (m - n)%nat with 0%nat by lia. rewrite take_0.
    apply drop_ge. rewrite length_take. lia.
Qed.

Lemma next_batchSize_bounds rowGroupSize numLeft :
  1 <= rowGroupSize -> 1 <= numLeft ->
  1 <= next_batchSize rowGroupSize numLeft <= numLeft
  /\ next_batchSize rowGroupSize numLeft = Z.min rowGroupSize numLeft.
Proof.
  intros HR HN. unfold next_batchSize.
  destruct (Z.ltb_spec numLeft rowGroupSize); lia.
Qed.

Section WriterLoop.
Context {codes : ArrowFunctions_h}.
Variable dev : OutputSide.
Variable chpl_ptr : list Z.
Variable rowGroupSize : Z.
Hypothesis encode_ok : forall k, encode_status dev k = StatusOK.
Hypothesis rowGroupSize_pos : 1 <= rowGroupSize.

(** With enough fuel the loop returns; what it appends holds the
    [numLeft] values from [i] on in runs of [rowGroupSize]. *)
Lemma write_row_groups_partitioned (fuel : nat) :
  forall (i numLeft : Z) (written : list RowGroup),
    0 <= i -> 0 <= numLeft ->
    i + numLeft <= Z.of_nat (length chpl_ptr) ->
    i + numLeft <= INT64_MAX ->
    (Z.to_nat numLeft < fuel)%nat ->
    exists appended,
      write_row_groups fuel dev chpl_ptr rowGroupSize i numLeft written
        = Returned (written ++ appended)
      /\ Partitioned dev (Z.to_nat rowGroupSize)
           (take (Z.to_nat numLeft) (drop (Z.to_nat i) chpl_ptr)) appended.
Proof.
  induction fuel as [| fuel IH]; intros i numLeft written Hi HN Hlen Hmax Hfuel; [lia |].
  simpl. destruct (Z.ltb_spec 0 numLeft) as [Hpos | Hzero].
  - destruct (next_batchSize_bounds rowGroupSize numLeft) as [Hbs Hmin]; [lia .. |].
    set (batchSize := next_batchSize rowGroupSize numLeft) in *.
    unfold WriteBatch.
    destruct (Z.leb_spec batchSize 0) as [? | _]; [lia |].
    destruct (Z.leb_spec 0 i) as [_ | ?]; [| lia].
    destruct (Z.leb_spec (i + batchSize) (Z.of_nat (length chpl_ptr))) as [_ | ?]; [| lia].
    rewrite encode_ok. simpl.
    pose proof Hmax as Hmax'. unfold INT64_MAX in Hmax'.
    rewrite !checked64_in by lia. simpl.
    destruct (IH (i + batchSize) (numLeft - batchSize)
                (written ++
                 [{| rg_num_rows :=
                       Z.of_nat (length (take (Z.to_nat batchSize) (drop (Z.to_nat i) chpl_ptr)));
                     rg_columns :=
                       [paginate dev
                          (map as_uint64 (take (Z.to_nat batchSize) (drop (Z.to_nat i) chpl_ptr)))]
                  |}]))
      as (appended & Hrun & Hpart); [lia .. |].
    eexists. split.
    + etrans; [exact Hrun |]. rewrite <- app_assoc. simpl. reflexivity.
    + assert (take (Z.to_nat batchSize) (drop (Z.to_nat i) chpl_ptr)
              = take (Z.to_nat rowGroupSize)
                  (take (Z.to_nat numLeft) (drop (Z.to_nat i) chpl_ptr))) as ->.
      { rewrite take_take. f_equal. lia. }
      apply partitioned_cons.
      * intros Hnil. apply (f_equal length) in Hnil.
        rewrite length_take, length_drop in Hnil. simpl in Hnil. lia.
      * rewrite drop_take_sub, drop_drop.
        destruct (Z.le_gt_cases rowGroupSize numLeft) as [Hfull | Hshort].
        -- replace (Z.to_nat (numLeft - batchSize))
             with (Z.to_nat numLeft - Z.to_nat rowGroupSize)%nat in Hpart by lia.
           replace (Z.to_nat (i + batchSize))
             with (Z.to_nat i + Z.to_nat rowGroupSize)%nat in Hpart by lia.
           exact Hpart.
        -- replace (Z.to_nat (numLeft - batchSize)) with 0%nat in Hpart by lia.
           replace (Z.to_nat numLeft - Z.to_nat rowGroupSize)%nat with 0%nat by lia.
           rewrite take_0 in *. exact Hpart.
  - exists []. rewrite app_nil_r. split; [reflexivity |].
    replace (Z.to_nat numLeft) with 0%nat by lia. rewrite take_0. constructor.
Qed.

End WriterLoop.

(** ** What a partition into row groups holds *)

Section PartitionedFacts.
Variable dev : OutputSide.
Variable n : nat.
Hypothesis n_pos : (1 <= n)%nat.

Lemma partitioned_total_rows values row_groups :
  Partitioned dev n values row_groups ->
  total_rows row_groups = Z.of_nat (length values).
Proof.
  induction 1 as [| values row_groups Hne _ IH]; [reflexivity |].
  simpl. rewrite IH, <- Nat2Z.inj_add, <- length_app, take_drop. reflexivity.
Qed.

Lemma partitioned_num_rows values row_groups :
  Partitioned dev n values row_groups ->
  map rg_num_rows row_groups
  = replicate (Z.to_nat (Z.of_nat (length values) / Z.of_nat n)) (Z.of_nat n)
      ++ (if Z.of_nat (length values) mod Z.of_nat n =? 0 then []
          else [Z.of_nat (length values) mod Z.of_nat n]).
Proof.
  induction 1 as [| values row_groups Hne Hrest IH].
  - reflexivity.
  - assert (0 < length values)%nat as Hlen by (destruct values; simpl; [congruence | lia]).
    simpl. rewrite length_take. rewrite length_drop in IH.
    destruct (decide (n <= length values)%nat) as [Hfull | Hshort].
    + replace (Z.of_nat (length values))
        with (Z.of_nat (length values - n) + 1 * Z.of_nat n) by lia.
      rewrite Z.div_add, Z.mod_add by lia.
      rewrite Z2Nat.inj_add by (try apply Z.div_pos; lia).
      rewrite Nat.add_comm. simpl. rewrite IH. f_equal. lia.
    + inversion Hrest as [Hnil | ? ? Hne' _ Hnil]; subst.
      * rewrite Z.div_small, Z.mod_small by lia. simpl.
        destruct (Z.eqb_spec (Z.of_nat (length values)) 0); [lia |].
        f_equal. lia.
      * exfalso. apply Hne'. apply drop_ge. lia.
Qed.

Lemma partitioned_first_column values row_groups :
  Partitioned dev n values row_groups ->
  Forall (fun rg => exists chunk, rg_columns rg !! 0%nat = Some chunk) row_groups.
Proof.
  induction 1; constructor; simpl; eauto.
Qed.

Hypothesis pages_hold_batch : forall words, concat (paginate dev words) = words.

Lemma partitioned_column_words values row_groups :
  Partitioned dev n values row_groups ->
  column_words 0 row_groups = map as_uint64 values.
Proof.
  unfold column_words.
  induction 1 as [| values row_groups Hne _ IH]; [reflexivity |].
  simpl. unfold chunk_words at 1. simpl.
  rewrite pages_hold_batch, IH, <- map_app, take_drop. reflexivity.
Qed.

Lemma partitioned_group_values values row_groups :
  Forall (fun v => in_int64 v = true) values ->
  Partitioned dev n values row_groups ->
  concat (map group_values row_groups) = values
  /\ map (fun rg => Z.of_nat (length (group_values rg))) row_groups
     = map rg_num_rows row_groups.
Proof.
  intros Hrange Hpart.
  induction Hpart as [| values row_groups Hne _ IH]; [split; reflexivity |].
  destruct IH as [IHv IHn]; [now apply Forall_drop |].
  assert (group_values
            {| rg_num_rows := Z.of_nat (length (take n values));
               rg_columns := [paginate dev (map as_uint64 (take n values))] |}
          = take n values) as Hgroup.
  { unfold group_values, chunk_words. simpl. rewrite pages_hold_batch.
    apply map_as_int64_as_uint64. now apply Forall_take. }
  simpl. rewrite Hgroup, IHv, IHn, take_drop. split; reflexivity.
Qed.

End PartitionedFacts.

(** ** The loop of the writer does not end when rowGroupSize is not positive *)

Lemma write_row_groups_stuck (dev : OutputSide) (chpl_ptr : list Z)
    (rowGroupSize : Z) (fuel : nat) :
  rowGroupSize <= 0 ->
  forall (i numLeft : Z) (written : list RowGroup),
    0 < numLeft ->
    write_row_groups fuel dev chpl_ptr rowGroupSize i numLeft written = Diverged
    \/ write_row_groups fuel dev chpl_ptr rowGroupSize i numLeft written = Undefined.
Proof.
  intros HR. induction fuel as [| fuel IH]; intros i numLeft written Hpos; [now left |].
  simpl. destruct (Z.ltb_spec 0 numLeft) as [_ | ?]; [| lia].
  unfold next_batchSize. destruct (Z.ltb_spec numLeft rowGroupSize) as [? | _]; [lia |].
  unfold WriteBatch. destruct (Z.leb_spec rowGroupSize 0) as [_ | ?]; [| lia].
  simpl. unfold checked64.
  destruct (in_int64 (numLeft - rowGroupSize)); simpl; [| now right].
  destruct (in_int64 (i + rowGroupSize)); simpl; [| now right].
  apply IH. lia.
Qed.

(** ** The batch loops of the reader *)

Lemma skip_exhausted_concat (pages : list Page) :
  concat (skip_exhausted pages) = concat pages.
Proof.
  induction pages as [| page pages IH]; [reflexivity |].
  destruct page; simpl; [exact IH | reflexivity].
Qed.

Lemma skip_exhausted_cons (pages : list Page) page rest :
  skip_exhausted pages = page :: rest ->
  page <> [] /\ skip_exhausted (page :: rest) = page :: rest.
Proof.
  induction pages as [| p pages IH]; simpl; [discriminate |].
  destruct p as [| x p].
  - exact IH.
  - intros [= <- <-]. split; [discriminate | reflexivity].
Qed.

Lemma store_block_hole (pre hole post values : list Z) :
  length hole = length values ->
  store_block (pre ++ hole ++ post) (Z.of_nat (length pre)) values
  = Returned (pre ++ values ++ post).
Proof.
  intros Hlen. unfold store_block. destruct values as [| v values].
  - destruct hole; [reflexivity | discriminate].
  - set (vs := v :: values) in *.
    destruct (Z.leb_spec 0 (Z.of_nat (length pre))) as [_ | ?]; [| lia].
    destruct (Z.leb_spec (Z.of_nat (length pre) + Z.of_nat (length vs))
                (Z.of_nat (length (pre ++ hole ++ post)))) as [_ | Hout]; simpl.
    + rewrite Nat2Z.id, take_app_length, drop_app_add, drop_app_length' by (symmetry; exact Hlen).
      reflexivity.
    + rewrite !length_app in Hout. lia.
Qed.

Lemma widen_batch_hole (tmpArr : list Z) :
  forall (pre hole post : list Z) (i j : Z),
    i + j = Z.of_nat (length pre) ->
    length hole = length tmpArr ->
    widen_batch (pre ++ hole ++ post) i j tmpArr
    = Returned (pre ++ tmpArr ++ post).
Proof.
  induction tmpArr as [| x tmpArr IH]; intros pre hole post i j Hij Hlen.
  - destruct hole; [reflexivity | discriminate].
  - destruct hole as [| h hole]; [discriminate |].
    simpl. unfold store.
    destruct (Z.leb_spec 0 (i + j)) as [_ | ?]; [| lia].
    destruct (Z.ltb_spec (i + j) (Z.of_nat (length (pre ++ h :: hole ++ post))))
      as [_ | Hout]; simpl.
    + rewrite Hij, Nat2Z.id.
      replace (length pre) with (length pre + 0)%nat at 1 by lia.
      rewrite insert_app_r. simpl. unfold int64_of_int32.
      rewrite (cons_middle x pre), app_assoc.
      rewrite IH.
      * rewrite <- app_assoc. reflexivity.
      * rewrite length_app. simpl. lia.
      * simpl in Hlen. lia.
    + rewrite length_app in Hout. simpl in Hout. lia.
Qed.

Section BatchesLoop.
Variable decode : Z -> Z.
Variable deliver : list Z -> Z -> list Z -> Outcome (list Z).
Variable batchSize : Z.
Hypothesis batchSize_pos : 1 <= batchSize.

(** The loop over a chunk that fits in the array, when each batch that
    fits is brought to the array, or else (if [lax]) is undefined
    behaviour: the loop fills the array, or else is undefined behaviour. *)
Lemma batches_loop_fills_lax (lax : Prop) :
  (forall pre hole post values,
     length hole = length values ->
     Z.of_nat (length values) <= batchSize ->
     deliver (pre ++ hole ++ post) (Z.of_nat (length pre)) values
     = Returned (pre ++ values ++ post)
     \/ (lax /\ deliver (pre ++ hole ++ post) (Z.of_nat (length pre)) values
               = Undefined)) ->
  forall (fuel : nat) (reader : list Page) (pre hole post : list Z),
    length hole = length (concat reader) ->
    Z.of_nat (length pre + length (concat reader)) <= INT64_MAX ->
    (length (concat reader) < fuel)%nat ->
    batches_loop decode deliver fuel batchSize reader (pre ++ hole ++ post)
      (Z.of_nat (length pre))
    = Returned (pre ++ map decode (concat reader) ++ post,
                Z.of_nat (length pre + length (concat reader)))
    \/ (lax /\ batches_loop decode deliver fuel batchSize reader (pre ++ hole ++ post)
                  (Z.of_nat (length pre)) = Undefined).
Proof.
  intros deliver_hole.
  induction fuel as [| fuel IH]; intros reader pre hole post Hhole Hmax Hfuel; [lia |].
  simpl. unfold HasNext.
  pose proof (skip_exhausted_concat reader) as Hcat.
  destruct (skip_exhausted reader) as [| page rest] eqn:Hskip.
  - simpl in Hcat. rewrite <- Hcat in *. simpl in *.
    destruct hole; [| discriminate]. rewrite Nat.add_0_r. left. reflexivity.
  - destruct (skip_exhausted_cons _ _ _ Hskip) as [Hpage Hidem].
    unfold ReadBatch. rewrite Hidem.
    destruct (Z.ltb_spec batchSize 0) as [? | _]; [lia |].
    set (n := Z.to_nat (Z.min batchSize (Z.of_nat (length page)))).
    assert (0 < length page)%nat as Hlen
      by (destruct page; simpl; [congruence | lia]).
    assert (1 <= n <= length page)%nat as Hn by (unfold n; lia).
    assert (Z.of_nat n <= batchSize) as Hbatch by (unfold n; lia).
    simpl in Hcat. rewrite <- Hcat in *. rewrite length_app in *.
    cbn [bind].
    rewrite <- (take_drop n hole), <- (app_assoc (take n hole)).
    destruct (deliver_hole pre (take n hole) (drop n hole ++ post)
                (map decode (take n page)))
      as [-> | [Hlax ->]];
      [rewrite length_map, !length_take; lia
      | rewrite length_map, length_take; lia
      | | right; split; [exact Hlax | reflexivity]].
    cbn [bind]. unfold INT64_MAX in Hmax.
    rewrite checked64_in by (rewrite length_map, length_take; lia).
    cbn [bind].
    replace (Z.of_nat (length pre) + Z.of_nat (length (map decode (take n page))))
      with (Z.of_nat (length (pre ++ map decode (take n page))))
      by (rewrite length_app; lia).
    rewrite (app_assoc pre).
    destruct (IH (drop n page :: rest) (pre ++ map decode (take n page))
                (drop n hole) post) as [-> | [Hlax ->]].
    + simpl. rewrite !length_app, !length_drop. lia.
    + simpl. rewrite !length_app, length_map, length_take, length_drop.
      unfold INT64_MAX. lia.
    + simpl. rewrite length_app, length_drop. lia.
    + left. f_equal. f_equal.
      * rewrite <- app_assoc. f_equal. rewrite app_assoc. f_equal.
        simpl. rewrite <- map_app, app_assoc, take_drop. reflexivity.
      * simpl. rewrite !length_app, length_map, length_take, length_drop. lia.
    + right. split; [exact Hlax | reflexivity].
Qed.

(** With enough fuel the loop returns, having put the decoded words of
    the chunk, in order, where [hole] was. *)
Lemma batches_loop_fills (fuel : nat) :
  (forall pre hole post values,
     length hole = length values ->
     Z.of_nat (length values) <= batchSize ->
     deliver (pre ++ hole ++ post) (Z.of_nat (length pre)) values
     = Returned (pre ++ values ++ post)) ->
  forall (reader : list Page) (pre hole post : list Z),
    length hole = length (concat reader) ->
    Z.of_nat (length pre + length (concat reader)) <= INT64_MAX ->
    (length (concat reader) < fuel)%nat ->
    batches_loop decode deliver fuel batchSize reader (pre ++ hole ++ post)
      (Z.of_nat (length pre))
    = Returned (pre ++ map decode (concat reader) ++ post,
                Z.of_nat (length pre + length (concat reader))).
Proof.
  intros deliver_hole reader pre hole post Hhole Hmax Hfuel.
  destruct (batches_loop_fills_lax False) with (fuel := fuel) (reader := reader)
    (pre := pre) (hole := hole) (post := post) as [Hfilled | [[] _]]; auto.
Qed.

End BatchesLoop.

Section ReaderLoops.
Context {codes : ArrowFunctions_h}.

Lemma read_batches_int64_loop fuel batchSize :
  forall reader chpl_ptr i,
    read_batches_int64 fuel batchSize reader chpl_ptr i
    = batches_loop as_int64 store_block fuel batchSize reader chpl_ptr i.
Proof.
  induction fuel as [| fuel IH]; intros reader chpl_ptr i; [reflexivity |].
  simpl. destruct (HasNext reader) as [[] reader']; [| reflexivity].
  destruct (ReadBatch as_int64 batchSize reader') as [[values r] | | |]; simpl; try reflexivity.
  destruct (store_block chpl_ptr i values); simpl; try reflexivity.
  destruct (checked64 (i + Z.of_nat (length values))); simpl; try reflexivity.
  apply IH.
Qed.

(** The UINT64 branch runs the loop of the INT64 branch. *)
Lemma read_batches_uint64_int64 fuel batchSize :
  forall reader chpl_ptr i,
    read_batches_uint64 fuel batchSize reader chpl_ptr i
    = read_batches_int64 fuel batchSize reader chpl_ptr i.
Proof.
  (* the two loops are the same text, so they are the same function *)
  intros reader chpl_ptr i. reflexivity.
Qed.

Lemma read_batches_int32_loop fuel batchSize tmpArr :
  forall reader chpl_ptr i,
    read_batches_int32 fuel batchSize tmpArr reader chpl_ptr i
    = batches_loop as_int32 (deliver_int32 tmpArr) fuel batchSize reader chpl_ptr i.
Proof.
  induction fuel as [| fuel IH]; intros reader chpl_ptr i; [reflexivity |].
  simpl. destruct (HasNext reader) as [[] reader']; [| reflexivity].
  destruct (ReadBatch as_int32 batchSize reader') as [[values r] | | |]; simpl; try reflexivity.
  unfold deliver_int32.
  destruct (store_scratch tmpArr values); simpl; try reflexivity.
  destruct (widen_batch chpl_ptr i 0 values); simpl; try reflexivity.
  destruct (checked64 (i + Z.of_nat (length values))); simpl; try reflexivity.
  apply IH.
Qed.

(** A scratch array with room for a whole batch takes every batch. *)
Lemma store_scratch_fits bytes batchSize (values : list Z) :
  batchSize * sizeof_int32_t <= bytes ->
  Z.of_nat (length values) <= batchSize ->
  store_scratch (Some bytes) values = Returned tt.
Proof.
  intros Hroom Hbatch. unfold store_scratch. destruct values as [| v values]; [reflexivity |].
  destruct (Z.leb_spec (Z.of_nat (length (v :: values)) * sizeof_int32_t) bytes) as [_ | Hout];
    [reflexivity |].
  unfold sizeof_int32_t in *. lia.
Qed.

Lemma deliver_int32_hole w batchSize :
  scratch_fits w batchSize ->
  forall pre hole post values,
    length hole = length values ->
    Z.of_nat (length values) <= batchSize ->
    deliver_int32 (malloc w (scratch_size batchSize)) (pre ++ hole ++ post)
      (Z.of_nat (length pre)) values
    = Returned (pre ++ values ++ post).
Proof.
  intros (bytes & -> & Hroom) pre hole post values Hhole Hbatch.
  unfold deliver_int32. rewrite (store_scratch_fits bytes batchSize) by assumption.
  cbn [bind]. apply widen_batch_hole; [lia | assumption].
Qed.

(** The row group loop does the same for the codes of INT64 and UINT64. *)
Lemma read_row_group_uint64_int64 w fuel schema filename colname batchSize rg chpl_arr i :
  read_row_group w fuel ARROWUINT64 schema filename colname batchSize rg chpl_arr i
  = read_row_group w fuel ARROWINT64 schema filename colname batchSize rg chpl_arr i.
Proof.
  unfold read_row_group.
  destruct (ColumnIndex schema colname <? 0); [reflexivity |].
  destruct (RowGroup_Column schema rg (ColumnIndex schema colname)); simpl; try reflexivity.
  rewrite !Z.eqb_refl.
  destruct (ARROWUINT64 =? ARROWINT64); reflexivity.
Qed.

Lemma read_row_groups_uint64_int64 w fuel schema filename colname batchSize row_groups :
  forall chpl_arr i errMsg,
    read_row_groups w fuel ARROWUINT64 schema filename colname batchSize row_groups
      chpl_arr i errMsg
    = read_row_groups w fuel ARROWINT64 schema filename colname batchSize row_groups
        chpl_arr i errMsg.
Proof.
  induction row_groups as [| rg row_groups IH]; intros chpl_arr i errMsg; [reflexivity |].
  simpl. rewrite read_row_group_uint64_int64.
  destruct (read_row_group w fuel ARROWINT64 schema filename colname batchSize rg chpl_arr i)
    as [[msg | [chpl_arr' i']] | | |]; simpl; try reflexivity.
  apply IH.
Qed.

(** One row group: the decoded words of its chunk fill the hole. *)
Lemma read_row_group_fills w fuel ty pt decode (schema : list PrimitiveNode)
    filename colname batchSize (idx : nat) node (rg : RowGroup) (chunk : ColumnChunk)
    (pre hole post : list Z) :
  Decoding ty pt decode ->
  (pt = parquet_Type.INT32 -> scratch_fits w batchSize) ->
  1 <= batchSize ->
  ColumnIndex schema colname = Z.of_nat idx ->
  schema !! idx = Some node ->
  physical_type node = pt ->
  rg_columns rg !! idx = Some chunk ->
  length hole = length (concat chunk) ->
  Z.of_nat (length pre + length (concat chunk)) <= INT64_MAX ->
  (length (concat chunk) < fuel)%nat ->
  read_row_group w fuel ty schema filename colname batchSize rg (pre ++ hole ++ post)
    (Z.of_nat (length pre))
  = Returned (inr (pre ++ map decode (concat chunk) ++ post,
                   Z.of_nat (length pre + length (concat chunk)))).
Proof.
  intros Hdec Hscratch Hbs Hidx Hnode Hpt Hchunk Hhole Hmax Hfuel.
  unfold read_row_group. rewrite Hidx.
  destruct (Z.ltb_spec (Z.of_nat idx) 0) as [? | _]; [lia |].
  unfold RowGroup_Column. rewrite Nat2Z.id, Hnode, Hchunk. cbn [bind].
  unfold static_cast_reader. cbn [cr_type cr_pages]. rewrite Hpt.
  assert (forall pre hole post values : list Z,
            length hole = length values ->
            Z.of_nat (length values) <= batchSize ->
            store_block (pre ++ hole ++ post) (Z.of_nat (length pre)) values
            = Returned (pre ++ values ++ post)) as Hblock
    by (intros; now apply store_block_hole).
  destruct Hdec as [| | Hne64 Hneu64].
  - rewrite Z.eqb_refl. rewrite decide_True by reflexivity. cbn [bind].
    rewrite read_batches_int64_loop.
    rewrite batches_loop_fills; auto.
  - destruct (ARROWUINT64 =? ARROWINT64).
    + rewrite decide_True by reflexivity. cbn [bind].
      rewrite read_batches_int64_loop.
      rewrite batches_loop_fills; auto.
    + rewrite Z.eqb_refl. rewrite decide_True by reflexivity. cbn [bind].
      rewrite read_batches_uint64_int64, read_batches_int64_loop.
      rewrite batches_loop_fills; auto.
  - destruct (Z.eqb_spec ARROWINT32 ARROWINT64) as [? | _]; [contradiction |].
    destruct (Z.eqb_spec ARROWINT32 ARROWUINT64) as [? | _]; [contradiction |].
    rewrite decide_True by reflexivity. cbn [bind]. cbv zeta.
    rewrite read_batches_int32_loop.
    rewrite batches_loop_fills; auto.
    apply deliver_int32_hole. now apply Hscratch.
Qed.

End ReaderLoops.

(** ** Resolving a column *)

Lemma lookup_map {A B} (f : A -> B) (l : list A) (k : nat) :
  map f l !! k = f <$> (l !! k).
Proof.
  revert k. induction l as [| x l IH]; intros [| k]; simpl; auto.
Qed.

(** A field found by [GetFieldIndex] is the leaf that [ColumnIndex] finds. *)
Lemma field_indices_single (name : string) (schema : list PrimitiveNode) :
  forall (from idx : Z),
    field_indices name from
      (map (fun node => {| field_name := node_name node; field_type := arrow_type_of node |})
         schema) = [idx] ->
    from <= idx
    /\ column_index_from from schema name = idx
    /\ exists node, schema !! Z.to_nat (idx - from) = Some node.
Proof.
  induction schema as [| node schema IH]; intros from idx; simpl; [discriminate |].
  destruct (decide (node_name node = name)) as [Hname | Hname].
  - intros [= <- _]. rewrite Z.sub_diag. split; [lia |]. split; [reflexivity |].
    exists node. reflexivity.
  - intros (Hle & Hcol & node' & Hnode)%IH.
    split; [lia |]. split; [exact Hcol |]. exists node'.
    replace (Z.to_nat (idx - from)) with (S (Z.to_nat (idx - (from + 1)))) by lia.
    exact Hnode.
Qed.

Lemma GetFieldIndex_found (reader : ParquetFile) (colname : string) (idx : Z) :
  GetFieldIndex (GetSchema reader) colname = idx ->
  idx <> -1 ->
  0 <= idx
  /\ ColumnIndex (pf_schema reader) colname = idx
  /\ exists node, pf_schema reader !! Z.to_nat idx = Some node.
Proof.
  unfold GetFieldIndex, GetSchema, ColumnIndex. intros Hidx Hfound.
  destruct (field_indices colname 0 _) as [| idx' [| ? ?]] eqn:Hind; try congruence.
  subst idx'. apply field_indices_single in Hind as (Hle & Hcol & node & Hnode).
  rewrite Z.sub_0_r in Hnode. eauto.
Qed.

Lemma field_indices_absent (name : string) (schema : list PrimitiveNode) :
  name ∉ map node_name schema ->
  forall from,
    field_indices name from
      (map (fun node => {| field_name := node_name node; field_type := arrow_type_of node |})
         schema) = [].
Proof.
  induction schema as [| node schema IH]; intros Habsent from; simpl; [reflexivity |].
  simpl in Habsent. apply not_elem_of_cons in Habsent as [Hne Hrest].
  destruct (decide (node_name node = name)) as [Hname | _]; [congruence |].
  now apply IH.
Qed.

Lemma arrow_type_physical (node : PrimitiveNode) :
  (arrow_type_of node = arrow_Type.INT64 -> physical_type node = parquet_Type.INT64)
  /\ (arrow_type_of node = arrow_Type.UINT64 -> physical_type node = parquet_Type.INT64)
  /\ (arrow_type_of node = arrow_Type.INT32 -> physical_type node = parquet_Type.INT32).
Proof.
  unfold arrow_type_of.
  destruct (physical_type node), (converted_type node); repeat split; congruence.
Qed.

Section ReadColumn.
Context {codes : ArrowFunctions_h}.

(** The code that [cpp_getType] gives an Arrow type. *)
Lemma cpp_getType_found w filename colname reader idx node :
  files w !! filename = Some (ParquetData reader) ->
  GetFieldIndex (GetSchema reader) colname = idx ->
  idx <> -1 ->
  pf_schema reader !! Z.to_nat idx = Some node ->
  cpp_getType w filename colname
  = (if decide (arrow_type_of node = arrow_Type.INT64) then ARROWINT64
     else if decide (arrow_type_of node = arrow_Type.INT32) then ARROWINT32
     else if decide (arrow_type_of node = arrow_Type.UINT64) then ARROWUINT64
     else if decide (arrow_type_of node = arrow_Type.TIMESTAMP) then ARROWTIMESTAMP
     else ARROWUNDEFINED, None).
Proof.
  intros Hfile Hidx Hfound Hnode.
  unfold cpp_getType, ReadableFile_Open. rewrite Hfile. cbn [arrow_OpenFile].
  cbv zeta. rewrite Hidx.
  destruct (Z.eqb_spec idx (-1)) as [? | _]; [contradiction |].
  unfold GetSchema. rewrite lookup_map, Hnode. cbn [fmap option_fmap option_map field_type].
  repeat case_decide; reflexivity.
Qed.

(** All row groups: the decoded words of the column fill the hole. *)
Lemma read_row_groups_fills w fuel ty pt decode (schema : list PrimitiveNode)
    filename colname batchSize (idx : nat) node errMsg :
  Decoding ty pt decode ->
  (pt = parquet_Type.INT32 -> scratch_fits w batchSize) ->
  1 <= batchSize ->
  ColumnIndex schema colname = Z.of_nat idx ->
  schema !! idx = Some node ->
  physical_type node = pt ->
  forall (row_groups : list RowGroup) (pre hole post : list Z),
    Forall (fun rg => exists chunk : list (list Z), rg_columns rg !! idx = Some chunk)
      row_groups ->
    length hole = length (column_words idx row_groups) ->
    Z.of_nat (length pre + length (column_words idx row_groups)) <= INT64_MAX ->
    (length (column_words idx row_groups) < fuel)%nat ->
    read_row_groups w fuel ty schema filename colname batchSize row_groups
      (pre ++ hole ++ post) (Z.of_nat (length pre)) errMsg
    = Returned (0, pre ++ map decode (column_words idx row_groups) ++ post, errMsg).
Proof.
  intros Hdec Hscratch Hbs Hidx Hnode Hpt.
  induction row_groups as [| rg row_groups IH];
    intros pre hole post Hchunks Hhole Hmax Hfuel.
  - destruct hole; [reflexivity | discriminate].
  - apply Forall_cons in Hchunks as [[chunk Hchunk] Hchunks].
    unfold column_words in *. cbn [map concat] in *.
    assert (chunk_words idx rg = concat chunk) as Hwords
      by (unfold chunk_words; now rewrite Hchunk).
    rewrite Hwords in *. rewrite length_app in *.
    cbn [read_row_groups].
    rewrite <- (take_drop (length (concat chunk)) hole),
      <- (app_assoc (take _ hole)).
    unfold INT64_MAX in Hmax.
    erewrite read_row_group_fills; eauto;
      try (rewrite ?length_take; unfold INT64_MAX; lia).
    cbn [bind]. rewrite (app_assoc pre).
    replace (length pre + length (concat chunk))%nat
      with (length (pre ++ map decode (concat chunk)))
      by (rewrite length_app, length_map; reflexivity).
    rewrite IH; auto.
    + rewrite map_app, <- !app_assoc. reflexivity.
    + rewrite length_drop. lia.
    + rewrite length_app, length_map. unfold INT64_MAX. lia.
    + lia.
Qed.

End ReadColumn.

Section WholeCalls.
Context {codes : ArrowFunctions_h}.

(** Reading a column that [cpp_getType] resolves to one of the three
    integer codes: the decoded words of the column, in file order, fill
    the front of the caller's array. *)
Lemma cpp_readColumnByName_fills w fuel filename colname numElems batchSize
    reader ty errMsg decode (idx : nat) node (hole post : list Z) :
  files w !! filename = Some (ParquetData reader) ->
  cpp_getType w filename colname = (ty, errMsg) ->
  Decoding ty (physical_type node) decode ->
  (physical_type node = parquet_Type.INT32 -> scratch_fits w batchSize) ->
  ColumnIndex (pf_schema reader) colname = Z.of_nat idx ->
  pf_schema reader !! idx = Some node ->
  Forall (fun rg => exists chunk : list (list Z), rg_columns rg !! idx = Some chunk)
    (pf_row_groups reader) ->
  1 <= batchSize ->
  length hole = length (column_words idx (pf_row_groups reader)) ->
  Z.of_nat (length hole) <= INT64_MAX ->
  (length hole < fuel)%nat ->
  cpp_readColumnByName w fuel filename (hole ++ post) colname numElems batchSize
  = Returned (0, map decode (column_words idx (pf_row_groups reader)) ++ post, errMsg).
Proof.
  intros Hfile Htype Hdec Hscratch Hidx Hnode Hchunks Hbs Hhole Hmax Hfuel.
  unfold cpp_readColumnByName. rewrite Htype.
  assert ((ty =? ARROWINT64) || (ty =? ARROWINT32) || (ty =? ARROWUINT64) = true) as ->.
  { destruct Hdec; rewrite Z.eqb_refl, ?orb_true_r; reflexivity. }
  unfold ParquetFileReader_OpenFile, ReadableFile_Open. rewrite Hfile.
  cbn [arrow_OpenFile bind].
  apply (read_row_groups_fills w fuel ty _ decode _ filename colname batchSize idx node
           errMsg Hdec Hscratch Hbs Hidx Hnode eq_refl (pf_row_groups reader) [] hole post);
    simpl; try assumption; lia.
Qed.

Lemma total_rows_app (written appended : list RowGroup) :
  total_rows (written ++ appended) = total_rows written + total_rows appended.
Proof.
  unfold total_rows. induction written as [| rg written IH]; simpl; lia.
Qed.

(** If the loop of the writer returns, it has appended as many rows as
    there were values left. *)
Lemma write_row_groups_total_rows dev chpl_ptr rowGroupSize (fuel : nat) :
  forall (i numLeft : Z) (written row_groups : list RowGroup),
    0 <= numLeft ->
    write_row_groups fuel dev chpl_ptr rowGroupSize i numLeft written
      = Returned row_groups ->
    total_rows row_groups = total_rows written + numLeft.
Proof.
  induction fuel as [| fuel IH]; intros i numLeft written row_groups HN; [discriminate |].
  destruct (Z.le_gt_cases rowGroupSize 0) as [Hbad | Hgood].
  { destruct (Z.le_gt_cases numLeft 0) as [Hzero | Hpos].
    - simpl. destruct (Z.ltb_spec 0 numLeft); [lia |]. intros [= <-]. lia.
    - intros Hret.
      destruct (write_row_groups_stuck dev chpl_ptr rowGroupSize (S fuel) Hbad
                  i numLeft written Hpos); congruence. }
  simpl. destruct (Z.ltb_spec 0 numLeft) as [Hpos | Hzero]; [| intros [= <-]; lia].
  destruct (next_batchSize_bounds rowGroupSize numLeft) as [Hbs _]; [lia .. |].
  set (batchSize := next_batchSize rowGroupSize numLeft) in *.
  unfold WriteBatch.
  destruct (Z.leb_spec batchSize 0) as [? | _]; [lia |].
  destruct (Z.leb_spec 0 i) as [Hi | ?]; [| discriminate].
  destruct (Z.leb_spec (i + batchSize) (Z.of_nat (length chpl_ptr))) as [Hin | ?];
    [| discriminate].
  simpl. destruct (encode_status dev (length written)); [| discriminate].
  simpl. unfold checked64.
  destruct (in_int64 (numLeft - batchSize)); [| discriminate]. simpl.
  destruct (in_int64 (i + batchSize)); [| discriminate]. simpl.
  intros Hret. apply IH in Hret; [| lia].
  rewrite Hret, total_rows_app. simpl.
  rewrite length_take, length_drop. lia.
Qed.

(** The loop of the writer ends when [rowGroupSize] is positive. *)
Lemma write_row_groups_ends dev chpl_ptr rowGroupSize (fuel : nat) :
  1 <= rowGroupSize ->
  forall (i numLeft : Z) (written : list RowGroup),
    (Z.to_nat numLeft < fuel)%nat ->
    write_row_groups fuel dev chpl_ptr rowGroupSize i numLeft written <> Diverged.
Proof.
  intros HR. induction fuel as [| fuel IH]; intros i numLeft written Hfuel; [lia |].
  simpl. destruct (Z.ltb_spec 0 numLeft) as [Hpos | Hzero]; [| discriminate].
  destruct (next_batchSize_bounds rowGroupSize numLeft) as [Hbs _]; [lia .. |].
  set (batchSize := next_batchSize rowGroupSize numLeft) in *.
  destruct (WriteBatch dev (length written) batchSize chpl_ptr i) as [[rows chunk] | | |] eqn:Hwb;
    simpl; try discriminate.
  - unfold checked64.
    destruct (in_int64 (numLeft - batchSize)); [| discriminate]. simpl.
    destruct (in_int64 (i + batchSize)); [| discriminate]. simpl.
    apply IH. lia.
  - unfold WriteBatch in Hwb.
    destruct (batchSize <=? 0); [discriminate |].
    destruct ((0 <=? i) && (i + batchSize <=? Z.of_nat (length chpl_ptr)));
      [| discriminate].
    destruct (encode_status dev (length written)); discriminate.
Qed.

(** A call of the writer on a sound output side. *)
Lemma cpp_writeColumnToParquet_ok dev w fuel filename chpl_arr colnum dsetname
    numelems rowGroupSize dtype :
  output_ok dev filename ->
  1 <= rowGroupSize ->
  0 <= numelems <= Z.of_nat (length chpl_arr) ->
  numelems <= INT64_MAX ->
  (Z.to_nat numelems < fuel)%nat ->
  exists row_groups,
    cpp_writeColumnToParquet dev w fuel filename chpl_arr colnum dsetname
      numelems rowGroupSize dtype
    = Returned (0,
                put_file w filename
                  (ParquetData
                     (close_file
                        [{| node_name := dsetname;
                            physical_type := parquet_Type.INT64;
                            converted_type :=
                              if dtype =? 1 then ConvertedType.NONE
                              else ConvertedType.UINT_64 |}]
                        row_groups)),
                None)
    /\ Partitioned dev (Z.to_nat rowGroupSize) (take (Z.to_nat numelems) chpl_arr)
         row_groups.
Proof.
  intros (Hopen & Hencode & Hfooter & Hclose & _) HR HN Hmax Hfuel.
  destruct (write_row_groups_partitioned dev chpl_arr rowGroupSize Hencode HR fuel
              0 numelems []) as (row_groups & Hrun & Hpart); try lia.
  exists row_groups. split; [| exact Hpart].
  unfold cpp_writeColumnToParquet. rewrite Hopen. cbn [PARQUET_ASSIGN_OR_THROW bind].
  rewrite Hrun. cbn [bind app]. rewrite Hfooter, Hclose. cbn [or_throw bind].
  destruct (dtype =? 1); reflexivity.
Qed.

(** How the writer reports the failures of the output side: a file that
    cannot be opened and a footer that cannot be written are thrown; only
    the failure to close the stream is returned with a message. *)
Lemma write_open_failure_thrown dev w fuel filename chpl_arr colnum dsetname
    numelems rowGroupSize dtype message :
  out_open dev filename = StatusError message ->
  cpp_writeColumnToParquet dev w fuel filename chpl_arr colnum dsetname
    numelems rowGroupSize dtype = Thrown message.
Proof.
  intros Hopen. unfold cpp_writeColumnToParquet. rewrite Hopen. reflexivity.
Qed.

Lemma write_footer_failure_thrown dev w fuel filename chpl_arr colnum dsetname
    numelems rowGroupSize dtype row_groups message :
  out_open dev filename = StatusOK ->
  write_row_groups fuel dev chpl_arr rowGroupSize 0 numelems [] = Returned row_groups ->
  writer_close dev = StatusError message ->
  cpp_writeColumnToParquet dev w fuel filename chpl_arr colnum dsetname
    numelems rowGroupSize dtype = Thrown message.
Proof.
  intros Hopen Hrun Hfooter. unfold cpp_writeColumnToParquet.
  rewrite Hopen. cbn [PARQUET_ASSIGN_OR_THROW bind].
  rewrite Hrun. cbn [bind]. rewrite Hfooter. reflexivity.
Qed.

Lemma write_close_failure_returned dev w fuel filename chpl_arr colnum dsetname
    numelems rowGroupSize dtype row_groups message :
  out_open dev filename = StatusOK ->
  write_row_groups fuel dev chpl_arr rowGroupSize 0 numelems [] = Returned row_groups ->
  writer_close dev = StatusOK ->
  out_close dev = StatusError message ->
  cpp_writeColumnToParquet dev w fuel filename chpl_arr colnum dsetname
    numelems rowGroupSize dtype
  = Returned (ARROWERROR, put_file w filename incomplete_file, Some message).
Proof.
  intros Hopen Hrun Hfooter Hclose. unfold cpp_writeColumnToParquet.
  rewrite Hopen. cbn [PARQUET_ASSIGN_OR_THROW bind].
  rewrite Hrun. cbn [bind]. rewrite Hfooter. cbn [or_throw bind].
  rewrite Hclose. reflexivity.
Qed.

End WholeCalls.

(** ** Reading back what the writer wrote *)

Lemma append_assoc (a b c : string) : (a +:+ b) +:+ c = a +:+ (b +:+ c).
Proof.
  induction a as [| ch a IH]; [reflexivity |].
  change (String ch ((a +:+ b) +:+ c) = String ch (a +:+ (b +:+ c))).
  now rewrite IH.
Qed.

Lemma append_empty_r (a : string) : a +:+ "" = a.
Proof.
  induction a as [| ch a IH]; [reflexivity |].
  change (String ch (a +:+ "") = String ch a).
  now rewrite IH.
Qed.

Lemma sound_output_ok filename : output_ok sound_output filename.
Proof.
  repeat split; intros; simpl; rewrite ?app_nil_r; reflexivity.
Qed.

Section ReadWritten.
Context {codes : ArrowFunctions_h}.

Lemma read_written_column dev w filename dsetname dtype (n : nat) values row_groups
    fuel (hole post : list Z) numElems batchSize :
  (forall words, concat (paginate dev words) = words) ->
  Partitioned dev n values row_groups ->
  Forall (fun v => in_int64 v = true) values ->
  1 <= batchSize ->
  length hole = length values ->
  Z.of_nat (length values) <= INT64_MAX ->
  (length values < fuel)%nat ->
  let written :=
    close_file
      [{| node_name := dsetname; physical_type := parquet_Type.INT64;
          converted_type :=
            if dtype =? 1 then ConvertedType.NONE else ConvertedType.UINT_64 |}]
      row_groups in
  cpp_getType (put_file w filename (ParquetData written)) filename dsetname
  = (if dtype =? 1 then ARROWINT64 else ARROWUINT64, None)
  /\ cpp_readColumnByName (put_file w filename (ParquetData written)) fuel filename
       (hole ++ post) dsetname numElems batchSize
     = Returned (0, values ++ post, None).
Proof.
  intros Hpages Hpart Hrange Hbs Hhole Hmax Hfuel written.
  set (node := {| node_name := dsetname; physical_type := parquet_Type.INT64;
                  converted_type :=
                    if dtype =? 1 then ConvertedType.NONE else ConvertedType.UINT_64 |}).
  assert (files (put_file w filename (ParquetData written)) !! filename
          = Some (ParquetData written)) as Hfile
    by (unfold put_file; simpl; apply lookup_insert_eq).
  assert (cpp_getType (put_file w filename (ParquetData written)) filename dsetname
          = (if dtype =? 1 then ARROWINT64 else ARROWUINT64, None)) as Htype.
  { rewrite (cpp_getType_found _ filename dsetname written 0 node Hfile).
    - unfold node, arrow_type_of. simpl. destruct (dtype =? 1); reflexivity.
    - unfold GetFieldIndex, GetSchema. simpl.
      rewrite decide_True by reflexivity. reflexivity.
    - discriminate.
    - reflexivity. }
  split; [exact Htype |].
  pose proof (partitioned_column_words dev n Hpages values row_groups Hpart) as Hwords.
  rewrite (cpp_readColumnByName_fills _ fuel filename dsetname numElems batchSize
             written _ None as_int64 0 node hole post Hfile Htype).
  - simpl. rewrite Hwords, map_as_int64_as_uint64 by assumption. reflexivity.
  - simpl. destruct (dtype =? 1); constructor.
  - simpl. discriminate.
  - unfold ColumnIndex. simpl. rewrite decide_True by reflexivity. reflexivity.
  - reflexivity.
  - simpl. eapply partitioned_first_column. exact Hpart.
  - exact Hbs.
  - simpl. rewrite Hwords, length_map. exact Hhole.
  - rewrite Hhole. exact Hmax.
  - rewrite Hhole. exact Hfuel.
Qed.

(** X7. A column written as unsigned ([dtype] other than 1) resolves to
    the code of UInt64 and is read back as it was written. *)
Lemma write_read_roundtrip_unsigned dev w filename chpl_arr colnum dsetname
    numelems rowGroupSize dtype fuel fuel' (hole post : list Z) numElems batchSize :
  dtype <> 1 ->
  output_ok dev filename ->
  Forall (fun v => in_int64 v = true) chpl_arr ->
  0 <= numelems <= Z.of_nat (length chpl_arr) ->
  numelems <= INT64_MAX ->
  1 <= rowGroupSize ->
  1 <= batchSize ->
  Z.of_nat (length hole) = numelems ->
  (Z.to_nat numelems < fuel)%nat ->
  (Z.to_nat numelems < fuel')%nat ->
  exists w',
    cpp_writeColumnToParquet dev w fuel filename chpl_arr colnum dsetname
      numelems rowGroupSize dtype = Returned (0, w', None)
    /\ cpp_getType w' filename dsetname = (ARROWUINT64, None)
    /\ cpp_readColumnByName w' fuel' filename (hole ++ post) dsetname numElems batchSize
       = Returned (0, take (Z.to_nat numelems) chpl_arr ++ post, None).
Proof.
  intros Hdtype Hdev Hrange HN Hmax HR Hbs Hhole Hfuel Hfuel'.
  destruct (cpp_writeColumnToParquet_ok dev w fuel filename chpl_arr colnum dsetname
              numelems rowGroupSize dtype Hdev HR HN Hmax Hfuel)
    as (row_groups & Hwrite & Hpart).
  eexists. split; [exact Hwrite |].
  assert (length (take (Z.to_nat numelems) chpl_arr) = Z.to_nat numelems) as Hlen
    by (rewrite length_take; lia).
  destruct (read_written_column dev w filename dsetname dtype (Z.to_nat rowGroupSize)
              (take (Z.to_nat numelems) chpl_arr) row_groups fuel'
              hole post numElems batchSize) as [Htype Hread];
    [.. | split; [| exact Hread]];
    try first [assumption | apply Hdev | now apply Forall_take | rewrite Hlen; lia].
  rewrite Htype. destruct (Z.eqb_spec dtype 1); [contradiction | reflexivity].
Qed.

End ReadWritten.

Lemma as_int32_sign_bit (word : Z) :
  0 <= word < 2 ^ 32 ->
  as_int32 word = if Z.testbit word 31 then word - 2 ^ 32 else word.
Proof.
  intros Hword. unfold as_int32. rewrite Z.mod_small by lia.
  pose proof (Z.testbit_spec' word 31 ltac:(lia)) as Hbit.
  destruct (Z.ltb_spec word (2 ^ 31)) as [Hlow | Hhigh].
  - rewrite Z.div_small in Hbit by lia.
    destruct (Z.testbit word 31); [discriminate | reflexivity].
  - assert (word / 2 ^ 31 = 1) as Hq
      by (symmetry; apply (Z.div_unique word (2 ^ 31) 1 (word - 2 ^ 31)); lia).
    rewrite Hq in Hbit.
    destruct (Z.testbit word 31); [reflexivity | discriminate].
Qed.

(** No wrap-around below [2^62] values of four bytes. *)
Lemma scratch_size_small (batchSize : Z) :
  0 <= batchSize < 2 ^ 62 -> scratch_size batchSize = batchSize * sizeof_int32_t.
Proof.
  intros Hsmall. unfold scratch_size, as_size_t, sizeof_int32_t.
  rewrite (Z.mod_small batchSize) by lia. apply Z.mod_small. lia.
Qed.

Lemma scratch_fits_intro (w : World) (batchSize : Z) :
  0 <= batchSize < 2 ^ 62 ->
  malloc_succeeds w (batchSize * sizeof_int32_t) = true ->
  scratch_fits w batchSize.
Proof.
  intros Hsmall Hmalloc. exists (batchSize * sizeof_int32_t).
  unfold malloc. rewrite scratch_size_small, Hmalloc by assumption.
  split; [reflexivity | lia].
Qed.

(** * The properties of the interface *)

Section Properties.
Context {codes : ArrowFunctions_h}.

(** C1. Round trip: for every element count [numelems >= 0] and every
    row group size [rowGroupSize >= 1], whether or not it divides
    [numelems], writing the first [numelems] values of an array of 64-bit
    signed values and reading the column back yields exactly these values,
    in their order, at the front of the caller's array. *)
Theorem write_read_roundtrip dev w filename chpl_arr colnum dsetname
    numelems rowGroupSize fuel fuel' (hole post : list Z) numElems batchSize :
  output_ok dev filename ->
  Forall (fun v => in_int64 v = true) chpl_arr ->
  0 <= numelems <= Z.of_nat (length chpl_arr) ->
  numelems <= INT64_MAX ->
  1 <= rowGroupSize ->
  1 <= batchSize ->
  Z.of_nat (length hole) = numelems ->
  (Z.to_nat numelems < fuel)%nat ->
  (Z.to_nat numelems < fuel')%nat ->
  exists w',
    cpp_writeColumnToParquet dev w fuel filename chpl_arr colnum dsetname
      numelems rowGroupSize 1 = Returned (0, w', None)
    /\ cpp_readColumnByName w' fuel' filename (hole ++ post) dsetname numElems batchSize
       = Returned (0, take (Z.to_nat numelems) chpl_arr ++ post, None).
Proof.
  intros Hdev Hrange HN Hmax HR Hbs Hhole Hfuel Hfuel'.
  destruct (cpp_writeColumnToParquet_ok dev w fuel filename chpl_arr colnum dsetname
              numelems rowGroupSize 1 Hdev HR HN Hmax Hfuel)
    as (row_groups & Hwrite & Hpart).
  eexists. split; [exact Hwrite |].
  assert (length (take (Z.to_nat numelems) chpl_arr) = Z.to_nat numelems) as Hlen
    by (rewrite length_take; lia).
  destruct (read_written_column dev w filename dsetname 1 (Z.to_nat rowGroupSize)
              (take (Z.to_nat numelems) chpl_arr) row_groups fuel'
              hole post numElems batchSize) as [_ Hread];
    [.. | exact Hread];
    first [assumption | apply Hdev | now apply Forall_take | rewrite Hlen; lia].
Qed.

(** C2. The read path does to a UINT64 column what it does to an INT64
    column: the loop over the row groups is the same function for the two
    codes, and the values delivered for a UINT64 column are the stored
    64-bit patterns, unchanged, read as [int64_t]; reinterpreted as
    unsigned they are the stored words again (the word [2^64-1] arrives as
    the pattern of [2^64-1]). *)
Theorem uint64_column_read_as_int64
    w0 fuel0 schema0 filename0 colname0 batchSize0 row_groups0 chpl_arr0 i0 errMsg0
    w fuel filename colname numElems batchSize reader (idx : nat) node
    (hole post : list Z) :
  files w !! filename = Some (ParquetData reader) ->
  GetFieldIndex (GetSchema reader) colname = Z.of_nat idx ->
  pf_schema reader !! idx = Some node ->
  arrow_type_of node = arrow_Type.UINT64 ->
  Forall (fun rg => exists chunk : list (list Z), rg_columns rg !! idx = Some chunk)
    (pf_row_groups reader) ->
  Forall (fun word => 0 <= word < 2 ^ 64) (column_words idx (pf_row_groups reader)) ->
  1 <= batchSize ->
  length hole = length (column_words idx (pf_row_groups reader)) ->
  Z.of_nat (length hole) <= INT64_MAX ->
  (length hole < fuel)%nat ->
  read_row_groups w0 fuel0 ARROWUINT64 schema0 filename0 colname0 batchSize0 row_groups0
    chpl_arr0 i0 errMsg0
  = read_row_groups w0 fuel0 ARROWINT64 schema0 filename0 colname0 batchSize0 row_groups0
      chpl_arr0 i0 errMsg0
  /\ exists values,
       cpp_readColumnByName w fuel filename (hole ++ post) colname numElems batchSize
       = Returned (0, values ++ post, None)
       /\ values = map as_int64 (column_words idx (pf_row_groups reader))
       /\ map as_uint64 values = column_words idx (pf_row_groups reader).
Proof.
  intros Hfile Hidx Hnode Hty Hchunks Hwords Hbs Hhole Hmax Hfuel.
  split; [apply read_row_groups_uint64_int64 |].
  eexists. split; [| split; [reflexivity |]].
  - destruct (GetFieldIndex_found reader colname (Z.of_nat idx) Hidx) as (_ & Hcol & _);
      [lia |].
    apply (cpp_readColumnByName_fills w fuel filename colname numElems batchSize reader
             ARROWUINT64 None as_int64 idx node hole post); try assumption.
    + rewrite (cpp_getType_found w filename colname reader (Z.of_nat idx) node);
        rewrite ?Nat2Z.id; try assumption; [| lia].
      rewrite Hty. reflexivity.
    + destruct (arrow_type_physical node) as (_ & Hphys & _).
      rewrite (Hphys Hty). constructor.
    + destruct (arrow_type_physical node) as (_ & Hphys & _).
      rewrite (Hphys Hty). discriminate.
  - now apply map_as_uint64_as_int64.
Qed.

(** C4. An INT32 column is read through a scratch array of [int32_t]
    and widened value by value: each stored 32-bit word arrives in the
    caller's array sign-extended to 64 bits (the word [0xFFFFFFFF], which
    is -1, arrives as -1 and not as 4294967295).  The scratch array has to
    be there: [batchSize * sizeof(int32_t)] must not wrap around in
    [size_t], and [malloc] must find a block of that size. *)
Theorem int32_column_sign_extended
    w fuel filename colname numElems batchSize reader (idx : nat) node
    (hole post : list Z) :
  ARROWINT32 <> ARROWINT64 ->
  ARROWINT32 <> ARROWUINT64 ->
  files w !! filename = Some (ParquetData reader) ->
  GetFieldIndex (GetSchema reader) colname = Z.of_nat idx ->
  pf_schema reader !! idx = Some node ->
  arrow_type_of node = arrow_Type.INT32 ->
  Forall (fun rg => exists chunk : list (list Z), rg_columns rg !! idx = Some chunk)
    (pf_row_groups reader) ->
  1 <= batchSize < 2 ^ 62 ->
  malloc_succeeds w (batchSize * sizeof_int32_t) = true ->
  length hole = length (column_words idx (pf_row_groups reader)) ->
  Z.of_nat (length hole) <= INT64_MAX ->
  (length hole < fuel)%nat ->
  cpp_readColumnByName w fuel filename (hole ++ post) colname numElems batchSize
  = Returned (0, map as_int32 (column_words idx (pf_row_groups reader)) ++ post, None)
  /\ forall word, 0 <= word < 2 ^ 32 ->
       as_int32 word = if Z.testbit word 31 then word - 2 ^ 32 else word.
Proof.
  intros Hne64 Hneu64 Hfile Hidx Hnode Hty Hchunks [Hbs Hnowrap] Hmalloc Hhole Hmax Hfuel.
  split; [| apply as_int32_sign_bit].
  destruct (GetFieldIndex_found reader colname (Z.of_nat idx) Hidx) as (_ & Hcol & _);
    [lia |].
  apply (cpp_readColumnByName_fills w fuel filename colname numElems batchSize reader
           ARROWINT32 None as_int32 idx node hole post); try assumption.
  - rewrite (cpp_getType_found w filename colname reader (Z.of_nat idx) node);
      rewrite ?Nat2Z.id; try assumption; [| lia].
    rewrite Hty. reflexivity.
  - destruct (arrow_type_physical node) as (_ & _ & Hphys).
    rewrite (Hphys Hty). now constructor.
  - intros _. apply scratch_fits_intro; [lia | exact Hmalloc].
Qed.

(** C3. Not every failure of the writer comes back as a result code
    with a message: when the output file cannot be opened, and when the
    footer cannot be written, the call ends by a C++ exception that leaves
    the function, and no message is handed to the caller. *)
Theorem write_failures_are_thrown :
  cpp_writeColumnToParquet readonly_output empty_world 2 "/nonexistent/out.parquet"
    [7] 0 "col" 1 1 1
  = Thrown "Failed to open local file"
  /\ cpp_writeColumnToParquet full_disk_output empty_world 2 "out.parquet"
       [7] 0 "col" 1 1 1
     = Thrown "No space left on device".
Proof. split; reflexivity. Qed.

(** C5. For [numelems >= 0] and [rowGroupSize >= 1] the writer cuts the
    first [numelems] values into consecutive row groups:
    [numelems / rowGroupSize] groups of exactly [rowGroupSize] values,
    followed by one group of [numelems mod rowGroupSize] values when that
    remainder is not zero; the values of the groups, in order, are the
    input. *)
Theorem write_partitions_row_groups dev w fuel filename chpl_arr colnum dsetname
    numelems rowGroupSize dtype :
  output_ok dev filename ->
  Forall (fun v => in_int64 v = true) chpl_arr ->
  0 <= numelems <= Z.of_nat (length chpl_arr) ->
  numelems <= INT64_MAX ->
  1 <= rowGroupSize ->
  (Z.to_nat numelems < fuel)%nat ->
  exists w' f,
    cpp_writeColumnToParquet dev w fuel filename chpl_arr colnum dsetname
      numelems rowGroupSize dtype = Returned (0, w', None)
    /\ files w' !! filename = Some (ParquetData f)
    /\ concat (map group_values (pf_row_groups f)) = take (Z.to_nat numelems) chpl_arr
    /\ map (fun rg => Z.of_nat (length (group_values rg))) (pf_row_groups f)
       = replicate (Z.to_nat (numelems / rowGroupSize)) rowGroupSize
           ++ (if numelems mod rowGroupSize =? 0 then []
               else [numelems mod rowGroupSize])
    /\ map rg_num_rows (pf_row_groups f)
       = replicate (Z.to_nat (numelems / rowGroupSize)) rowGroupSize
           ++ (if numelems mod rowGroupSize =? 0 then []
               else [numelems mod rowGroupSize]).
Proof.
  intros Hdev Hrange HN Hmax HR Hfuel.
  destruct (cpp_writeColumnToParquet_ok dev w fuel filename chpl_arr colnum dsetname
              numelems rowGroupSize dtype Hdev HR HN Hmax Hfuel)
    as (row_groups & Hwrite & Hpart).
  destruct Hdev as (_ & _ & _ & _ & Hpages).
  do 2 eexists. split; [exact Hwrite |].
  split; [unfold put_file; simpl; apply lookup_insert_eq |].
  cbn [close_file pf_row_groups].
  destruct (partitioned_group_values dev (Z.to_nat rowGroupSize) Hpages
              (take (Z.to_nat numelems) chpl_arr) row_groups) as [Hvalues Hsizes];
    [now apply Forall_take | exact Hpart |].
  pose proof (partitioned_num_rows dev (Z.to_nat rowGroupSize) ltac:(lia)
                (take (Z.to_nat numelems) chpl_arr) row_groups Hpart) as Hrows.
  rewrite length_take in Hrows.
  replace (Z.of_nat (Z.to_nat numelems `min` length chpl_arr)) with numelems in Hrows
    by lia.
  rewrite Z2Nat.id in Hrows by lia.
  split; [exact Hvalues |]. rewrite Hsizes. split; exact Hrows.
Qed.

(** C6. For a file that can be opened and a column name that is not in
    its schema, [cpp_getType] returns [ARROWERROR] and leaves a message
    that contains both the path of the file and the name asked for. *)
Theorem getType_absent_column w filename colname reader :
  files w !! filename = Some (ParquetData reader) ->
  colname ∉ map node_name (pf_schema reader) ->
  exists msg,
    cpp_getType w filename colname = (ARROWERROR, Some msg)
    /\ contains msg filename
    /\ contains msg colname.
Proof.
  intros Hfile Habsent.
  exists ("Dataset: " +:+ colname +:+ " does not exist in file: " +:+ filename).
  split; [| split].
  - unfold cpp_getType, ReadableFile_Open. rewrite Hfile. cbn [arrow_OpenFile].
    unfold GetFieldIndex, GetSchema.
    rewrite (field_indices_absent colname (pf_schema reader) Habsent 0).
    reflexivity.
  - exists ("Dataset: " +:+ colname +:+ " does not exist in file: "), "".
    rewrite append_empty_r, !append_assoc. reflexivity.
  - exists "Dataset: ", (" does not exist in file: " +:+ filename). reflexivity.
Qed.


(** C8. After a call of the writer that succeeds on [numelems >= 0]
    values, [cpp_getNumRows] on the file returns exactly [numelems], the
    sum of the row counts of the row groups written (0 for a file without
    rows). *)
Theorem getNumRows_after_write dev w fuel filename chpl_arr colnum dsetname
    numelems rowGroupSize dtype w' :
  0 <= numelems ->
  cpp_writeColumnToParquet dev w fuel filename chpl_arr colnum dsetname
    numelems rowGroupSize dtype = Returned (0, w', None) ->
  cpp_getNumRows w' filename = (numelems, None).
Proof.
  intros HN. unfold cpp_writeColumnToParquet.
  destruct (out_open dev filename); [| discriminate]. cbn [PARQUET_ASSIGN_OR_THROW bind].
  destruct (write_row_groups fuel dev chpl_arr rowGroupSize 0 numelems [])
    as [row_groups | | |] eqn:Hrun; try discriminate. cbn [bind].
  destruct (writer_close dev); [| discriminate]. cbn [or_throw bind].
  destruct (out_close dev); [| discriminate].
  intros [= <-].
  apply write_row_groups_total_rows in Hrun; [| exact HN].
  unfold cpp_getNumRows, ReadableFile_Open, put_file. simpl.
  rewrite lookup_insert_eq. simpl. rewrite Hrun. reflexivity.
Qed.

(** C9. The loop of the writer ends when [rowGroupSize >= 1]: each round
    takes a batch of at least one and at most [numLeft] values off
    [numLeft], so [numLeft] rounds suffice.  With a row group size that is
    not positive and values left to write, a round does not make [numLeft]
    smaller, and the loop never comes to its end. *)
Theorem write_loop_ends_iff_rowGroupSize_positive dev chpl_ptr i written
    (rowGroupSize numLeft : Z) (fuel : nat) (badSize stuckLeft : Z) :
  1 <= rowGroupSize ->
  (Z.to_nat numLeft < fuel)%nat ->
  badSize <= 0 ->
  0 < stuckLeft ->
  (0 < numLeft -> 0 < next_batchSize rowGroupSize numLeft <= numLeft)
  /\ write_row_groups fuel dev chpl_ptr rowGroupSize i numLeft written <> Diverged
  /\ stuckLeft <= stuckLeft - next_batchSize badSize stuckLeft
  /\ forall fuel' row_groups,
       write_row_groups fuel' dev chpl_ptr badSize i stuckLeft written
       <> Returned row_groups.
Proof.
  intros HR Hfuel Hbad Hstuck. repeat split.
  - destruct (next_batchSize_bounds rowGroupSize numLeft); lia.
  - destruct (next_batchSize_bounds rowGroupSize numLeft); lia.
  - now apply write_row_groups_ends.
  - unfold next_batchSize. destruct (Z.ltb_spec stuckLeft badSize); lia.
  - intros fuel' row_groups.
    destruct (write_row_groups_stuck dev chpl_ptr badSize fuel' Hbad i stuckLeft written
                Hstuck) as [-> | ->]; discriminate.
Qed.

(** C10. [cpp_readColumnByName] does not look at [numElems]: two calls
    that differ in this argument only write the same to the caller's
    array and return the same. *)
Theorem read_ignores_numElems w fuel filename chpl_arr colname numElems numElems'
    batchSize :
  cpp_readColumnByName w fuel filename chpl_arr colname numElems batchSize
  = cpp_readColumnByName w fuel filename chpl_arr colname numElems' batchSize.
Proof. reflexivity. Qed.

End Properties.

(** * The properties at concrete inputs *)

(** Five values in row groups of two, read back in batches of three. *)
Lemma write_read_roundtrip_witness :
  exists w',
    cpp_writeColumnToParquet (codes := example_header) sound_output empty_world 6
      "f.parquet" [1; 2; -3; 4; 5] 0 "col" 5 2 1 = Returned (0, w', None)
    /\ cpp_readColumnByName (codes := example_header) w' 6 "f.parquet"
         ([0; 0; 0; 0; 0] ++ [9]) "col" 77 3
       = Returned (0, [1; 2; -3; 4; 5; 9], None).
Proof.
  apply (@write_read_roundtrip example_header sound_output empty_world "f.parquet"
           [1; 2; -3; 4; 5] 0 "col" 5 2 6 6 [0; 0; 0; 0; 0] [9] 77 3).
  - apply sound_output_ok.
  - repeat constructor.
  - simpl. lia.
  - unfold INT64_MAX. lia.
  - lia.
  - lia.
  - reflexivity.
  - simpl. lia.
  - simpl. lia.
Defined.

(** The words [2^64-1] and [2^63] of a UINT64 column. *)
Lemma uint64_column_read_as_int64_witness :
  read_row_groups (codes := example_header) empty_world 1 2 [] "" "" 1 [] [] 0 None
  = read_row_groups (codes := example_header) empty_world 1 0 [] "" "" 1 [] [] 0 None
  /\ exists values,
       cpp_readColumnByName (codes := example_header)
         (world_of "u.parquet" (ParquetData uint64_file)) 3 "u.parquet"
         ([0; 0] ++ []) "u" 2 1
       = Returned (0, values ++ [], None)
       /\ values = [-1; -9223372036854775808]
       /\ map as_uint64 values = [18446744073709551615; 9223372036854775808].
Proof.
  apply (@uint64_column_read_as_int64 example_header empty_world 1%nat [] "" "" 1 [] [] 0 None
           (world_of "u.parquet" (ParquetData uint64_file)) 3%nat "u.parquet" "u" 2 1
           uint64_file 1%nat
           {| node_name := "u"; physical_type := parquet_Type.INT64;
              converted_type := ConvertedType.UINT_64 |}
           [0; 0] []).
  - reflexivity.
  - reflexivity.
  - reflexivity.
  - reflexivity.
  - repeat constructor. simpl. eauto.
  - repeat constructor; lia.
  - lia.
  - reflexivity.
  - unfold INT64_MAX. simpl. lia.
  - simpl. lia.
Defined.

(** The words [0xFFFFFFFF], [7], [0x80000000] and [0x7FFFFFFF] of an
    INT32 column. *)
Lemma int32_column_sign_extended_witness :
  cpp_readColumnByName (codes := example_header)
    (world_of "i.parquet" (ParquetData int32_file)) 5 "i.parquet"
    ([0; 0; 0; 0] ++ [5]) "a" 4 2
  = Returned (0, [-1; 7; -2147483648; 2147483647] ++ [5], None)
  /\ forall word, 0 <= word < 2 ^ 32 ->
       as_int32 word = if Z.testbit word 31 then word - 2 ^ 32 else word.
Proof.
  apply (@int32_column_sign_extended example_header
           (world_of "i.parquet" (ParquetData int32_file)) 5%nat "i.parquet" "a" 4 2
           int32_file 0%nat
           {| node_name := "a"; physical_type := parquet_Type.INT32;
              converted_type := ConvertedType.NONE |}
           [0; 0; 0; 0] [5]).
  - discriminate.
  - discriminate.
  - reflexivity.
  - reflexivity.
  - reflexivity.
  - reflexivity.
  - repeat constructor; simpl; eauto.
  - lia.
  - reflexivity.
  - reflexivity.
  - unfold INT64_MAX. simpl. lia.
  - simpl. lia.
Defined.

(** Five values in row groups of two: two full groups and one of one. *)
Lemma write_partitions_row_groups_witness :
  exists w' f,
    cpp_writeColumnToParquet (codes := example_header) sound_output empty_world 6
      "f.parquet" [1; 2; -3; 4; 5] 0 "col" 5 2 1 = Returned (0, w', None)
    /\ files w' !! "f.parquet" = Some (ParquetData f)
    /\ concat (map group_values (pf_row_groups f)) = [1; 2; -3; 4; 5]
    /\ map (fun rg => Z.of_nat (length (group_values rg))) (pf_row_groups f) = [2; 2; 1]
    /\ map rg_num_rows (pf_row_groups f) = [2; 2; 1].
Proof.
  apply (@write_partitions_row_groups example_header sound_output empty_world 6%nat
           "f.parquet" [1; 2; -3; 4; 5] 0 "col" 5 2 1).
  - apply sound_output_ok.
  - repeat constructor.
  - simpl. lia.
  - unfold INT64_MAX. lia.
  - lia.
  - simpl. lia.
Defined.

(** The column ["b"] of a file whose only column is ["a"]. *)
Lemma getType_absent_column_witness :
  exists msg,
    cpp_getType (codes := example_header)
      (world_of "i.parquet" (ParquetData int32_file)) "i.parquet" "b"
    = (-1, Some msg)
    /\ contains msg "i.parquet"
    /\ contains msg "b".
Proof.
  apply (@getType_absent_column example_header
           (world_of "i.parquet" (ParquetData int32_file)) "i.parquet" "b" int32_file).
  - reflexivity.
  - simpl. intros Hin. apply list_elem_of_singleton in Hin. discriminate.
Defined.



(** Five values written, five rows counted. *)
Lemma getNumRows_after_write_witness :
  cpp_getNumRows (codes := example_header)
    (world_after
       (cpp_writeColumnToParquet (codes := example_header) sound_output empty_world 6
          "f.parquet" [1; 2; -3; 4; 5] 0 "col" 5 2 1))
    "f.parquet"
  = (5, None).
Proof.
  apply (@getNumRows_after_write example_header sound_output empty_world 6%nat
           "f.parquet" [1; 2; -3; 4; 5] 0 "col" 5 2 1).
  - lia.
  - reflexivity.
Defined.

(** Three values: row groups of two end the loop, row groups of zero do
    not. *)
Lemma write_loop_ends_iff_rowGroupSize_positive_witness :
  (0 < 3 -> 0 < next_batchSize 2 3 <= 3)
  /\ write_row_groups 4 sound_output [1; 2; 3] 2 0 3 [] <> Diverged
  /\ 3 <= 3 - next_batchSize 0 3
  /\ forall fuel' row_groups,
       write_row_groups fuel' sound_output [1; 2; 3] 0 0 3 [] <> Returned row_groups.
Proof.
  apply (@write_loop_ends_iff_rowGroupSize_positive sound_output [1; 2; 3] 0 [] 2 3 4%nat
           0 3).
  - lia.
  - simpl. lia.
  - lia.
  - lia.
Defined.

(** * Further properties of the functions *)

(** ** Reading a column of any file *)

Section ReadAnyFile.
Context {codes : ArrowFunctions_h}.

(** A column that is found and whose Arrow type is one of the three
    integer types: the code resolved, and how its words are decoded. *)
Lemma supported_column_decoding w filename colname reader (idx : nat) node :
  files w !! filename = Some (ParquetData reader) ->
  GetFieldIndex (GetSchema reader) colname = Z.of_nat idx ->
  pf_schema reader !! idx = Some node ->
  arrow_type_of node = arrow_Type.INT64
  \/ arrow_type_of node = arrow_Type.UINT64
  \/ (arrow_type_of node = arrow_Type.INT32
      /\ ARROWINT32 <> ARROWINT64 /\ ARROWINT32 <> ARROWUINT64) ->
  exists ty decode,
    cpp_getType w filename colname = (ty, None)
    /\ Decoding ty (physical_type node) decode
    /\ ColumnIndex (pf_schema reader) colname = Z.of_nat idx.
Proof.
  intros Hfile Hidx Hnode Hty.
  destruct (GetFieldIndex_found reader colname (Z.of_nat idx) Hidx) as (_ & Hcol & _);
    [lia |].
  pose proof (cpp_getType_found w filename colname reader (Z.of_nat idx) node Hfile Hidx)
    as Htype.
  rewrite Nat2Z.id in Htype. specialize (Htype ltac:(lia) Hnode).
  destruct (arrow_type_physical node) as (H64 & Hu64 & H32).
  destruct Hty as [Hty | [Hty | (Hty & Hne64 & Hneu64)]]; rewrite Hty in Htype.
  - exists ARROWINT64, as_int64. rewrite (H64 Hty).
    split; [exact Htype |]. split; [constructor | exact Hcol].
  - exists ARROWUINT64, as_int64. rewrite (Hu64 Hty).
    split; [exact Htype |]. split; [constructor | exact Hcol].
  - exists ARROWINT32, as_int32. rewrite (H32 Hty).
    split; [exact Htype |]. split; [now constructor | exact Hcol].
Qed.

(** X1. For any file, a column of Arrow type INT64 is read whole: the
    stored 64-bit words of its chunks, row group after row group and page
    after page, arrive as [int64_t] values at the front of the caller's
    array; the call returns 0, leaves no message and leaves the rest of the
    array as it was. *)
Theorem read_int64_column w fuel filename colname numElems batchSize reader
    (idx : nat) node (hole post : list Z) :
  files w !! filename = Some (ParquetData reader) ->
  GetFieldIndex (GetSchema reader) colname = Z.of_nat idx ->
  pf_schema reader !! idx = Some node ->
  arrow_type_of node = arrow_Type.INT64 ->
  Forall (fun rg => exists chunk : list (list Z), rg_columns rg !! idx = Some chunk)
    (pf_row_groups reader) ->
  1 <= batchSize ->
  length hole = length (column_words idx (pf_row_groups reader)) ->
  Z.of_nat (length hole) <= INT64_MAX ->
  (length hole < fuel)%nat ->
  cpp_readColumnByName w fuel filename (hole ++ post) colname numElems batchSize
  = Returned (0, map as_int64 (column_words idx (pf_row_groups reader)) ++ post, None).
Proof.
  intros Hfile Hidx Hnode Hty Hchunks Hbs Hhole Hmax Hfuel.
  destruct (GetFieldIndex_found reader colname (Z.of_nat idx) Hidx) as (_ & Hcol & _);
    [lia |].
  apply (cpp_readColumnByName_fills w fuel filename colname numElems batchSize reader
           ARROWINT64 None as_int64 idx node hole post); try assumption.
  - rewrite (cpp_getType_found w filename colname reader (Z.of_nat idx) node);
      rewrite ?Nat2Z.id; try assumption; [| lia].
    rewrite Hty. reflexivity.
  - destruct (arrow_type_physical node) as (Hphys & _ & _).
    rewrite (Hphys Hty). constructor.
  - destruct (arrow_type_physical node) as (Hphys & _ & _).
    rewrite (Hphys Hty). discriminate.
Qed.

(** X2. What is read does not depend on the batch size: for a column of
    one of the three integer types, two calls with batch sizes of at least 1
    give the same result and the same array.  For an INT32 column both
    scratch arrays have to be there: neither [batchSize * sizeof(int32_t)]
    wraps around in [size_t], and [malloc] finds a block for both. *)
Theorem read_result_independent_of_batchSize w fuel filename colname numElems
    batchSize batchSize' reader (idx : nat) node (hole post : list Z) :
  files w !! filename = Some (ParquetData reader) ->
  GetFieldIndex (GetSchema reader) colname = Z.of_nat idx ->
  pf_schema reader !! idx = Some node ->
  arrow_type_of node = arrow_Type.INT64
  \/ arrow_type_of node = arrow_Type.UINT64
  \/ (arrow_type_of node = arrow_Type.INT32
      /\ ARROWINT32 <> ARROWINT64 /\ ARROWINT32 <> ARROWUINT64
      /\ batchSize < 2 ^ 62 /\ batchSize' < 2 ^ 62
      /\ malloc_succeeds w (batchSize * sizeof_int32_t) = true
      /\ malloc_succeeds w (batchSize' * sizeof_int32_t) = true) ->
  Forall (fun rg => exists chunk : list (list Z), rg_columns rg !! idx = Some chunk)
    (pf_row_groups reader) ->
  1 <= batchSize ->
  1 <= batchSize' ->
  length hole = length (column_words idx (pf_row_groups reader)) ->
  Z.of_nat (length hole) <= INT64_MAX ->
  (length hole < fuel)%nat ->
  cpp_readColumnByName w fuel filename (hole ++ post) colname numElems batchSize
  = cpp_readColumnByName w fuel filename (hole ++ post) colname numElems batchSize'.
Proof.
  intros Hfile Hidx Hnode Hty Hchunks Hbs Hbs' Hhole Hmax Hfuel.
  destruct (arrow_type_physical node) as (H64 & Hu64 & H32).
  assert ((physical_type node = parquet_Type.INT32 -> scratch_fits w batchSize)
          /\ (physical_type node = parquet_Type.INT32 -> scratch_fits w batchSize'))
    as [Hscratch Hscratch'].
  { destruct Hty as [Hty | [Hty | (Hty & _ & _ & Hsmall & Hsmall' & Hm & Hm')]].
    - rewrite (H64 Hty). split; discriminate.
    - rewrite (Hu64 Hty). split; discriminate.
    - split; intros _; apply scratch_fits_intro; first [lia | assumption]. }
  assert (arrow_type_of node = arrow_Type.INT64
          \/ arrow_type_of node = arrow_Type.UINT64
          \/ (arrow_type_of node = arrow_Type.INT32
              /\ ARROWINT32 <> ARROWINT64 /\ ARROWINT32 <> ARROWUINT64)) as Hty'
    by (destruct Hty as [? | [? | (? & ? & ? & _)]]; auto).
  destruct (supported_column_decoding w filename colname reader idx node
              Hfile Hidx Hnode Hty') as (ty & decode & Htype & Hdec & Hcol).
  rewrite (cpp_readColumnByName_fills w fuel filename colname numElems batchSize reader
             ty None decode idx node hole post) by assumption.
  rewrite (cpp_readColumnByName_fills w fuel filename colname numElems batchSize' reader
             ty None decode idx node hole post) by assumption.
  reflexivity.
Qed.

(** X11. When the header gives [ARROWTIMESTAMP] the value of
    [ARROWINT64], a timestamp column stored as 64-bit integers is resolved
    to that code and read as an INT64 column is. *)
Theorem read_timestamp_column_as_int64 w fuel filename colname numElems batchSize
    reader (idx : nat) node (hole post : list Z) :
  ARROWTIMESTAMP = ARROWINT64 ->
  files w !! filename = Some (ParquetData reader) ->
  GetFieldIndex (GetSchema reader) colname = Z.of_nat idx ->
  pf_schema reader !! idx = Some node ->
  arrow_type_of node = arrow_Type.TIMESTAMP ->
  physical_type node = parquet_Type.INT64 ->
  Forall (fun rg => exists chunk : list (list Z), rg_columns rg !! idx = Some chunk)
    (pf_row_groups reader) ->
  1 <= batchSize ->
  length hole = length (column_words idx (pf_row_groups reader)) ->
  Z.of_nat (length hole) <= INT64_MAX ->
  (length hole < fuel)%nat ->
  cpp_getType w filename colname = (ARROWTIMESTAMP, None)
  /\ cpp_readColumnByName w fuel filename (hole ++ post) colname numElems batchSize
     = Returned (0, map as_int64 (column_words idx (pf_row_groups reader)) ++ post, None).
Proof.
  intros Hcode Hfile Hidx Hnode Hty Hphys Hchunks Hbs Hhole Hmax Hfuel.
  destruct (GetFieldIndex_found reader colname (Z.of_nat idx) Hidx) as (_ & Hcol & _);
    [lia |].
  assert (cpp_getType w filename colname = (ARROWTIMESTAMP, None)) as Htype.
  { rewrite (cpp_getType_found w filename colname reader (Z.of_nat idx) node);
      rewrite ?Nat2Z.id; try assumption; [| lia].
    rewrite Hty. reflexivity. }
  split; [exact Htype |].
  apply (cpp_readColumnByName_fills w fuel filename colname numElems batchSize reader
           ARROWTIMESTAMP None as_int64 idx node hole post); try assumption.
  - rewrite Hcode, Hphys. constructor.
  - rewrite Hphys. discriminate.
Qed.

End ReadAnyFile.

(** ** The reader at the edges: short arrays and a batch size of zero *)

Lemma store_block_delivers : delivers store_block.
Proof.
  split; [intros; left; now apply store_block_hole | split].
  - intros pre rest values Hshort. unfold store_block.
    destruct values as [| v values]; [simpl in Hshort; lia |].
    destruct (Z.leb_spec (Z.of_nat (length pre) + Z.of_nat (length (v :: values)))
                (Z.of_nat (length (pre ++ rest)))) as [Hin | _].
    + rewrite length_app in Hin. lia.
    + now rewrite andb_false_r.
  - reflexivity.
Qed.

Lemma widen_batch_overflow (tmpArr : list Z) :
  forall (pre rest : list Z) (i j : Z),
    i + j = Z.of_nat (length pre) ->
    (length rest < length tmpArr)%nat ->
    widen_batch (pre ++ rest) i j tmpArr = Undefined.
Proof.
  induction tmpArr as [| x tmpArr IH]; intros pre rest i j Hij Hshort;
    [simpl in Hshort; lia |].
  simpl. unfold store. rewrite Hij.
  destruct (Z.leb_spec 0 (Z.of_nat (length pre))) as [_ | ?]; [| lia].
  destruct rest as [| r rest].
  - rewrite app_nil_r.
    destruct (Z.ltb_spec (Z.of_nat (length pre)) (Z.of_nat (length pre))); [lia |].
    reflexivity.
  - destruct (Z.ltb_spec (Z.of_nat (length pre)) (Z.of_nat (length (pre ++ r :: rest))))
      as [_ | Hout]; [| rewrite length_app in Hout; simpl in Hout; lia].
    simpl. rewrite Nat2Z.id.
    replace (length pre) with (length pre + 0)%nat at 1 by lia.
    rewrite insert_app_r. simpl.
    rewrite (cons_middle (int64_of_int32 x) pre), app_assoc.
    apply IH.
    + rewrite length_app. simpl. lia.
    + simpl in Hshort. lia.
Qed.

Lemma store_scratch_outcome tmpArr (values : list Z) :
  store_scratch tmpArr values = Returned tt \/ store_scratch tmpArr values = Undefined.
Proof.
  unfold store_scratch. destruct values; [now left |].
  destruct tmpArr as [bytes |]; [| now right].
  destruct (_ <=? bytes); [now left | now right].
Qed.

Lemma deliver_int32_delivers tmpArr : delivers (deliver_int32 tmpArr).
Proof.
  unfold deliver_int32. split; [| split].
  - intros pre hole post values Hhole.
    destruct (store_scratch_outcome tmpArr values) as [-> | ->]; [left | now right].
    cbn [bind]. apply widen_batch_hole; [lia | assumption].
  - intros pre rest values Hshort.
    destruct (store_scratch_outcome tmpArr values) as [-> | ->]; [| reflexivity].
    cbn [bind]. apply widen_batch_overflow; [lia | assumption].
  - reflexivity.
Qed.

Lemma skip_exhausted_nil (pages : list (list Z)) :
  concat pages = [] -> skip_exhausted pages = [].
Proof.
  intros Hnone. pose proof (skip_exhausted_concat pages) as Hcat.
  destruct (skip_exhausted pages) as [| page rest] eqn:Hskip; [reflexivity |].
  destruct (skip_exhausted_cons _ _ _ Hskip) as [Hpage _].
  rewrite Hnone in Hcat. simpl in Hcat. destruct page; [congruence | discriminate].
Qed.

Section BatchesLoopEdges.
Variable decode : Z -> Z.
Variable deliver : list Z -> Z -> list Z -> Outcome (list Z).
Hypothesis deliver_ok : delivers deliver.

(** A chunk without values is passed at once, whatever the batch size. *)
Lemma batches_loop_no_values fuel batchSize (reader : list (list Z)) chpl_ptr i :
  concat reader = [] ->
  batches_loop decode deliver (S fuel) batchSize reader chpl_ptr i
  = Returned (chpl_ptr, i).
Proof.
  intros Hnone. simpl. unfold HasNext. now rewrite (skip_exhausted_nil reader Hnone).
Qed.

(** A chunk that fits in the array: the loop fills the array, unless it
    runs into undefined behaviour on the way. *)
Lemma batches_loop_fills_or_undefined batchSize (fuel : nat) :
  1 <= batchSize ->
  forall (reader : list (list Z)) (pre hole post : list Z),
    length hole = length (concat reader) ->
    Z.of_nat (length pre + length (concat reader)) <= INT64_MAX ->
    (length (concat reader) < fuel)%nat ->
    batches_loop decode deliver fuel batchSize reader (pre ++ hole ++ post)
      (Z.of_nat (length pre))
    = Returned (pre ++ map decode (concat reader) ++ post,
                Z.of_nat (length pre + length (concat reader)))
    \/ batches_loop decode deliver fuel batchSize reader (pre ++ hole ++ post)
         (Z.of_nat (length pre)) = Undefined.
Proof.
  intros Hbs reader pre hole post Hhole Hmax Hfuel.
  destruct deliver_ok as (Hfits & _ & _).
  destruct (batches_loop_fills_lax decode deliver batchSize Hbs True) with
    (fuel := fuel) (reader := reader) (pre := pre) (hole := hole) (post := post)
    as [Hfilled | [_ Hundef]]; auto.
  intros pre' hole' post' values Hlen _.
  destruct (Hfits pre' hole' post' values Hlen) as [Hok | Hundef]; auto.
Qed.

(** A chunk with more values than the array has room for: the loop runs
    into the end of the array. *)
Lemma batches_loop_overflow batchSize (fuel : nat) :
  1 <= batchSize ->
  forall (reader : list (list Z)) (pre rest : list Z),
    (length rest < length (concat reader))%nat ->
    (length (concat reader) < fuel)%nat ->
    batches_loop decode deliver fuel batchSize reader (pre ++ rest)
      (Z.of_nat (length pre)) = Undefined.
Proof.
  intros Hbs. destruct deliver_ok as (Hfits & Hover & _).
  induction fuel as [| fuel IH]; intros reader pre rest Hshort Hfuel; [lia |].
  simpl. unfold HasNext.
  pose proof (skip_exhausted_concat reader) as Hcat.
  destruct (skip_exhausted reader) as [| page pages] eqn:Hskip.
  - simpl in Hcat. rewrite <- Hcat in Hshort. simpl in Hshort. lia.
  - destruct (skip_exhausted_cons _ _ _ Hskip) as [Hpage Hidem].
    unfold ReadBatch. rewrite Hidem.
    destruct (Z.ltb_spec batchSize 0) as [? | _]; [lia |].
    set (n := Z.to_nat (Z.min batchSize (Z.of_nat (length page)))).
    assert (0 < length page)%nat as Hlen
      by (destruct page; simpl; [congruence | lia]).
    assert (1 <= n <= length page)%nat as Hn by (unfold n; lia).
    simpl in Hcat. rewrite <- Hcat in *. rewrite length_app in *.
    cbn [bind].
    destruct (decide (n <= length rest)%nat) as [Hroom | Hnoroom].
    + rewrite <- (take_drop n rest).
      destruct (Hfits pre (take n rest) (drop n rest) (map decode (take n page)))
        as [-> | ->]; [rewrite length_map, !length_take; lia | | reflexivity].
      cbn [bind]. unfold checked64.
      destruct (in_int64 _); [| reflexivity]. cbn [bind].
      replace (Z.of_nat (length pre) + Z.of_nat (length (map decode (take n page))))
        with (Z.of_nat (length (pre ++ map decode (take n page))))
        by (rewrite length_app; lia).
      rewrite (app_assoc pre).
      apply IH.
      * simpl. rewrite length_app, !length_drop. lia.
      * simpl. rewrite length_app, length_drop. lia.
    + rewrite Hover by (rewrite length_map, length_take; lia).
      reflexivity.
Qed.

(** With a batch size of 0 no value is ever read: a chunk that holds a
    value keeps the loop going for ever. *)
Lemma batches_loop_stalls (fuel : nat) :
  forall (reader : list (list Z)) (chpl_ptr : list Z) (i : Z),
    concat reader <> [] ->
    in_int64 i = true ->
    batches_loop decode deliver fuel 0 reader chpl_ptr i = Diverged.
Proof.
  destruct deliver_ok as (_ & _ & Hnothing).
  induction fuel as [| fuel IH]; intros reader chpl_ptr i Hsome Hi; [reflexivity |].
  simpl. unfold HasNext.
  pose proof (skip_exhausted_concat reader) as Hcat.
  destruct (skip_exhausted reader) as [| page pages] eqn:Hskip;
    [simpl in Hcat; congruence |].
  destruct (skip_exhausted_cons _ _ _ Hskip) as [Hpage Hidem].
  unfold ReadBatch. rewrite Hidem.
  destruct (Z.ltb_spec 0 0) as [? | _]; [lia |].
  replace (Z.to_nat (Z.min 0 (Z.of_nat (length page)))) with 0%nat by lia.
  rewrite take_0, drop_0. cbn [map bind].
  rewrite Hnothing. cbn [bind length]. rewrite Z.add_0_r.
  unfold checked64. rewrite Hi. cbn [bind].
  apply IH; [| exact Hi].
  rewrite <- Hcat in Hsome. exact Hsome.
Qed.

End BatchesLoopEdges.

Section ReaderEdges.
Context {codes : ArrowFunctions_h}.

(** The body of the row group loop, for a column that is there and is
    decoded as its code says: one of the batch loops over its chunk. *)
Lemma read_row_group_as_loop w ty pt decode (schema : list PrimitiveNode)
    filename colname batchSize (idx : nat) node (rg : RowGroup)
    (chunk : list (list Z)) :
  Decoding ty pt decode ->
  ColumnIndex schema colname = Z.of_nat idx ->
  schema !! idx = Some node ->
  physical_type node = pt ->
  rg_columns rg !! idx = Some chunk ->
  exists deliver,
    delivers deliver
    /\ forall fuel chpl_arr i,
         read_row_group w fuel ty schema filename colname batchSize rg chpl_arr i
         = (do written <~ batches_loop decode deliver fuel batchSize chunk chpl_arr i in
            Returned (inr written)).
Proof.
  intros Hdec Hidx Hnode Hpt Hchunk.
  assert (forall fuel chpl_arr i,
            read_row_group w fuel ty schema filename colname batchSize rg chpl_arr i
            = (do written <~
                 (if ty =? ARROWINT64 then
                    do reader <~ static_cast_reader parquet_Type.INT64
                                   {| cr_type := pt; cr_pages := chunk |} in
                    read_batches_int64 fuel batchSize reader chpl_arr i
                  else if ty =? ARROWUINT64 then
                    do reader <~ static_cast_reader parquet_Type.INT64
                                   {| cr_type := pt; cr_pages := chunk |} in
                    read_batches_uint64 fuel batchSize reader chpl_arr i
                  else
                    do reader <~ static_cast_reader parquet_Type.INT32
                                   {| cr_type := pt; cr_pages := chunk |} in
                    read_batches_int32 fuel batchSize (malloc w (scratch_size batchSize))
                      reader chpl_arr i) in
               Returned (inr written))) as Hbody.
  { intros. unfold read_row_group. rewrite Hidx.
    destruct (Z.ltb_spec (Z.of_nat idx) 0) as [? | _]; [lia |].
    unfold RowGroup_Column. rewrite Nat2Z.id, Hnode, Hchunk, Hpt. reflexivity. }
  unfold static_cast_reader in Hbody. cbn [cr_type cr_pages] in Hbody.
  destruct Hdec as [| | Hne64 Hneu64].
  - exists store_block. split; [exact store_block_delivers |]. intros.
    rewrite Hbody, Z.eqb_refl, decide_True by reflexivity. cbn [bind].
    now rewrite read_batches_int64_loop.
  - exists store_block. split; [exact store_block_delivers |]. intros.
    rewrite Hbody, decide_True by reflexivity.
    destruct (ARROWUINT64 =? ARROWINT64); [| rewrite Z.eqb_refl]; cbn [bind];
      now rewrite ?read_batches_uint64_int64, read_batches_int64_loop.
  - exists (deliver_int32 (malloc w (scratch_size batchSize))).
    split; [exact (deliver_int32_delivers _) |]. intros. rewrite Hbody.
    destruct (Z.eqb_spec ARROWINT32 ARROWINT64) as [? | _]; [contradiction |].
    destruct (Z.eqb_spec ARROWINT32 ARROWUINT64) as [? | _]; [contradiction |].
    rewrite decide_True by reflexivity. cbn [bind].
    now rewrite read_batches_int32_loop.
Qed.

Lemma read_row_groups_overflow w fuel ty pt decode (schema : list PrimitiveNode)
    filename colname batchSize (idx : nat) node errMsg :
  Decoding ty pt decode ->
  1 <= batchSize ->
  ColumnIndex schema colname = Z.of_nat idx ->
  schema !! idx = Some node ->
  physical_type node = pt ->
  forall (row_groups : list RowGroup) (pre rest : list Z),
    Forall (fun rg => exists chunk : list (list Z), rg_columns rg !! idx = Some chunk)
      row_groups ->
    (length rest < length (column_words idx row_groups))%nat ->
    Z.of_nat (length pre + length rest) <= INT64_MAX ->
    (length (column_words idx row_groups) < fuel)%nat ->
    read_row_groups w fuel ty schema filename colname batchSize row_groups
      (pre ++ rest) (Z.of_nat (length pre)) errMsg = Undefined.
Proof.
  intros Hdec Hbs Hidx Hnode Hpt.
  induction row_groups as [| rg row_groups IH];
    intros pre rest Hchunks Hshort Hmax Hfuel; [simpl in Hshort; lia |].
  apply Forall_cons in Hchunks as [[chunk Hchunk] Hchunks].
  unfold column_words in *. cbn [map concat] in *.
  assert (chunk_words idx rg = concat chunk) as Hwords
    by (unfold chunk_words; now rewrite Hchunk).
  rewrite Hwords in *. rewrite length_app in *.
  cbn [read_row_groups].
  destruct (read_row_group_as_loop w ty pt decode schema filename colname batchSize idx
              node rg chunk Hdec Hidx Hnode Hpt Hchunk) as (deliver & Hdeliver & ->).
  destruct (decide (length (concat chunk) <= length rest)%nat) as [Hroom | Hnoroom].
  - rewrite <- (take_drop (length (concat chunk)) rest).
    destruct (batches_loop_fills_or_undefined decode deliver Hdeliver batchSize fuel Hbs
                chunk pre (take (length (concat chunk)) rest)
                (drop (length (concat chunk)) rest)) as [-> | ->];
      [rewrite length_take; lia | unfold INT64_MAX in *; lia | lia | | reflexivity].
    cbn [bind]. rewrite (app_assoc pre).
    replace (length pre + length (concat chunk))%nat
      with (length (pre ++ map decode (concat chunk)))
      by (rewrite length_app, length_map; reflexivity).
    apply IH; auto.
    + rewrite length_drop. lia.
    + rewrite length_app, length_map, length_drop. unfold INT64_MAX in *. lia.
    + lia.
  - rewrite (batches_loop_overflow decode deliver Hdeliver batchSize fuel Hbs) by lia.
    reflexivity.
Qed.

Lemma read_row_groups_stalls w ty pt decode (schema : list PrimitiveNode)
    filename colname (idx : nat) node errMsg :
  Decoding ty pt decode ->
  ColumnIndex schema colname = Z.of_nat idx ->
  schema !! idx = Some node ->
  physical_type node = pt ->
  forall (row_groups : list RowGroup) (fuel : nat) (chpl_arr : list Z) (i : Z),
    Forall (fun rg => exists chunk : list (list Z), rg_columns rg !! idx = Some chunk)
      row_groups ->
    column_words idx row_groups <> [] ->
    in_int64 i = true ->
    read_row_groups w fuel ty schema filename colname 0 row_groups chpl_arr i errMsg
    = Diverged.
Proof.
  intros Hdec Hidx Hnode Hpt.
  induction row_groups as [| rg row_groups IH];
    intros fuel chpl_arr i Hchunks Hsome Hi; [now contradiction Hsome |].
  apply Forall_cons in Hchunks as [[chunk Hchunk] Hchunks].
  unfold column_words in *. cbn [map concat] in *.
  assert (chunk_words idx rg = concat chunk) as Hwords
    by (unfold chunk_words; now rewrite Hchunk).
  rewrite Hwords in *.
  cbn [read_row_groups].
  destruct (read_row_group_as_loop w ty pt decode schema filename colname 0 idx node rg
              chunk Hdec Hidx Hnode Hpt Hchunk) as (deliver & Hdeliver & ->).
  destruct (concat chunk) as [| word words] eqn:Hchunk_words.
  - destruct fuel as [| fuel]; [reflexivity |].
    rewrite (batches_loop_no_values decode deliver) by assumption.
    cbn [bind]. apply IH; assumption.
  - rewrite (batches_loop_stalls decode deliver Hdeliver); [reflexivity | | exact Hi].
    rewrite Hchunk_words. discriminate.
Qed.

(** X3. The reader does not know the size of the caller's array, and
    [numElems] does not bound what it writes: when the column (of one of the
    three integer types) holds more values than the array has elements, the
    call writes beyond the end of the array, which is undefined behaviour. *)
Theorem read_into_short_array_undefined w fuel filename colname numElems batchSize
    reader (idx : nat) node (chpl_arr : list Z) :
  files w !! filename = Some (ParquetData reader) ->
  GetFieldIndex (GetSchema reader) colname = Z.of_nat idx ->
  pf_schema reader !! idx = Some node ->
  arrow_type_of node = arrow_Type.INT64
  \/ arrow_type_of node = arrow_Type.UINT64
  \/ (arrow_type_of node = arrow_Type.INT32
      /\ ARROWINT32 <> ARROWINT64 /\ ARROWINT32 <> ARROWUINT64) ->
  Forall (fun rg => exists chunk : list (list Z), rg_columns rg !! idx = Some chunk)
    (pf_row_groups reader) ->
  1 <= batchSize ->
  (length chpl_arr < length (column_words idx (pf_row_groups reader)))%nat ->
  Z.of_nat (length chpl_arr) <= INT64_MAX ->
  (length (column_words idx (pf_row_groups reader)) < fuel)%nat ->
  cpp_readColumnByName w fuel filename chpl_arr colname numElems batchSize = Undefined.
Proof.
  intros Hfile Hidx Hnode Hty Hchunks Hbs Hshort Hmax Hfuel.
  destruct (supported_column_decoding w filename colname reader idx node
              Hfile Hidx Hnode Hty) as (ty & decode & Htype & Hdec & Hcol).
  unfold cpp_readColumnByName. rewrite Htype.
  assert ((ty =? ARROWINT64) || (ty =? ARROWINT32) || (ty =? ARROWUINT64) = true) as ->.
  { destruct Hdec; rewrite Z.eqb_refl, ?orb_true_r; reflexivity. }
  unfold ParquetFileReader_OpenFile, ReadableFile_Open. rewrite Hfile.
  cbn [arrow_OpenFile bind].
  apply (read_row_groups_overflow w fuel ty _ decode _ filename colname batchSize idx node
           None Hdec Hbs Hcol Hnode eq_refl (pf_row_groups reader) [] chpl_arr);
    simpl; assumption.
Qed.

(** X4. With [batchSize = 0] the reader never comes back from a column
    (of one of the three integer types) that holds a value: each call of
    [ReadBatch] reads nothing and [HasNext] stays true. *)
Theorem read_with_batchSize_zero_never_returns w fuel filename colname numElems
    reader (idx : nat) node (chpl_arr : list Z) :
  files w !! filename = Some (ParquetData reader) ->
  GetFieldIndex (GetSchema reader) colname = Z.of_nat idx ->
  pf_schema reader !! idx = Some node ->
  arrow_type_of node = arrow_Type.INT64
  \/ arrow_type_of node = arrow_Type.UINT64
  \/ (arrow_type_of node = arrow_Type.INT32
      /\ ARROWINT32 <> ARROWINT64 /\ ARROWINT32 <> ARROWUINT64) ->
  Forall (fun rg => exists chunk : list (list Z), rg_columns rg !! idx = Some chunk)
    (pf_row_groups reader) ->
  column_words idx (pf_row_groups reader) <> [] ->
  cpp_readColumnByName w fuel filename chpl_arr colname numElems 0 = Diverged.
Proof.
  intros Hfile Hidx Hnode Hty Hchunks Hsome.
  destruct (supported_column_decoding w filename colname reader idx node
              Hfile Hidx Hnode Hty) as (ty & decode & Htype & Hdec & Hcol).
  unfold cpp_readColumnByName. rewrite Htype.
  assert ((ty =? ARROWINT64) || (ty =? ARROWINT32) || (ty =? ARROWUINT64) = true) as ->.
  { destruct Hdec; rewrite Z.eqb_refl, ?orb_true_r; reflexivity. }
  unfold ParquetFileReader_OpenFile, ReadableFile_Open. rewrite Hfile.
  cbn [arrow_OpenFile bind].
  apply (read_row_groups_stalls w ty _ decode _ filename colname idx node None
           Hdec Hcol Hnode eq_refl); [assumption .. | reflexivity].
Qed.

End ReaderEdges.

(** ** Files that cannot be read and columns that are not there *)

Lemma field_indices_single_name (name : string) (schema : list PrimitiveNode) :
  forall (from idx : Z),
    field_indices name from
      (map (fun node => {| field_name := node_name node; field_type := arrow_type_of node |})
         schema) = [idx] ->
    exists node, schema !! Z.to_nat (idx - from) = Some node /\ node_name node = name.
Proof.
  induction schema as [| node schema IH]; intros from idx; simpl; [discriminate |].
  destruct (decide (node_name node = name)) as [Hname | Hname].
  - intros [= <- _]. rewrite Z.sub_diag. exists node. split; [reflexivity | exact Hname].
  - intros Hind. destruct (field_indices_single name schema _ _ Hind) as (Hle & _ & _).
    destruct (IH _ _ Hind) as (node' & Hnode & Hname').
    exists node'. split; [| exact Hname'].
    replace (Z.to_nat (idx - from)) with (S (Z.to_nat (idx - (from + 1)))) by lia.
    exact Hnode.
Qed.

Section Resolution.
Context {codes : ArrowFunctions_h}.

(** X5. A path at which there is no file, or a file that is not a Parquet
    file: [c_getNumRows] and [c_getType] return [ARROWERROR] with the message
    of the library; [c_readColumnByName] hands on the same message and
    returns [ARROWUNDEFINED] (when [ARROWERROR] is not the code of an integer
    type), and does not touch the caller's array. *)
Theorem unreadable_file_reported w fuel filename colname (chpl_arr : list Z)
    numElems batchSize message :
  (files w !! filename = None /\ message = open_failure w filename)
  \/ files w !! filename = Some (NotParquet message) ->
  ARROWERROR <> ARROWINT64 ->
  ARROWERROR <> ARROWINT32 ->
  ARROWERROR <> ARROWUINT64 ->
  c_getNumRows w filename = (ARROWERROR, Some message)
  /\ c_getType w filename colname = (ARROWERROR, Some message)
  /\ c_readColumnByName w fuel filename chpl_arr colname numElems batchSize
     = Returned (ARROWUNDEFINED, chpl_arr, Some message).
Proof.
  intros Hfile H64 H32 Hu64.
  assert (cpp_getType w filename colname = (ARROWERROR, Some message)) as Htype.
  { unfold cpp_getType, ReadableFile_Open.
    destruct Hfile as [[-> ->] | ->]; reflexivity. }
  split; [| split; [exact Htype |]].
  - unfold c_getNumRows, cpp_getNumRows, ReadableFile_Open.
    destruct Hfile as [[-> ->] | ->]; reflexivity.
  - unfold c_readColumnByName, cpp_readColumnByName. rewrite Htype.
    destruct (Z.eqb_spec ARROWERROR ARROWINT64); [contradiction |].
    destruct (Z.eqb_spec ARROWERROR ARROWINT32); [contradiction |].
    destruct (Z.eqb_spec ARROWERROR ARROWUINT64); [contradiction |].
    reflexivity.
Qed.

(** X6. Reading a column that the file does not have: the call returns
    [ARROWUNDEFINED] (when [ARROWERROR] is not the code of an integer type),
    hands on the message of [cpp_getType], which names the column and the
    file, and does not touch the caller's array. *)
Theorem read_absent_column w fuel filename colname reader (chpl_arr : list Z)
    numElems batchSize :
  files w !! filename = Some (ParquetData reader) ->
  colname ∉ map node_name (pf_schema reader) ->
  ARROWERROR <> ARROWINT64 ->
  ARROWERROR <> ARROWINT32 ->
  ARROWERROR <> ARROWUINT64 ->
  cpp_readColumnByName w fuel filename chpl_arr colname numElems batchSize
  = Returned (ARROWUNDEFINED, chpl_arr,
              Some ("Dataset: " +:+ colname +:+ " does not exist in file: " +:+ filename)).
Proof.
  intros Hfile Habsent H64 H32 Hu64.
  assert (cpp_getType w filename colname
          = (ARROWERROR,
             Some ("Dataset: " +:+ colname +:+ " does not exist in file: " +:+ filename)))
    as Htype.
  { unfold cpp_getType, ReadableFile_Open. rewrite Hfile. cbn [arrow_OpenFile].
    unfold GetFieldIndex, GetSchema.
    rewrite (field_indices_absent colname (pf_schema reader) Habsent 0). reflexivity. }
  unfold cpp_readColumnByName. rewrite Htype.
  destruct (Z.eqb_spec ARROWERROR ARROWINT64); [contradiction |].
  destruct (Z.eqb_spec ARROWERROR ARROWINT32); [contradiction |].
  destruct (Z.eqb_spec ARROWERROR ARROWUINT64); [contradiction |].
  reflexivity.
Qed.

(** X12. [cpp_getType] and [cpp_getNumRows] leave a message only when
    they return [ARROWERROR].  When [cpp_getType] leaves none, the file is a
    Parquet file with a column of that name; when [cpp_getNumRows] leaves
    none, its result is the row count of the footer. *)
Theorem message_only_with_ARROWERROR w filename colname :
  match cpp_getType w filename colname with
  | (ty, Some _) => ty = ARROWERROR
  | (ty, None) =>
      exists reader (idx : nat) node,
        files w !! filename = Some (ParquetData reader)
        /\ pf_schema reader !! idx = Some node
        /\ node_name node = colname
  end
  /\ match cpp_getNumRows w filename with
     | (n, Some _) => n = ARROWERROR
     | (n, None) =>
         exists reader,
           files w !! filename = Some (ParquetData reader) /\ n = pf_num_rows reader
     end.
Proof.
  unfold cpp_getType, cpp_getNumRows, ReadableFile_Open.
  destruct (files w !! filename) as [[reader | why] |] eqn:Hfile;
    cbn [arrow_OpenFile]; try (split; reflexivity).
  split; [| exists reader; split; reflexivity].
  cbv zeta. unfold GetFieldIndex, GetSchema.
  destruct (field_indices colname 0 _) as [| idx [| ? ?]] eqn:Hind; try reflexivity.
  destruct (field_indices_single colname (pf_schema reader) 0 idx Hind) as (Hle & _ & _).
  destruct (field_indices_single_name colname (pf_schema reader) 0 idx Hind)
    as (node & Hnode & Hname).
  rewrite Z.sub_0_r in Hnode.
  destruct (Z.eqb_spec idx (-1)) as [? | _]; [lia |].
  assert (exists (k : nat) node', pf_schema reader !! k = Some node'
                                  /\ node_name node' = colname) as (k & node' & Hk & Hn)
    by (exists (Z.to_nat idx), node; split; assumption).
  assert (exists reader' (k' : nat) node'',
            Some (ParquetData reader) = Some (ParquetData reader')
            /\ pf_schema reader' !! k' = Some node''
            /\ node_name node'' = colname) as Hfound
    by (exists reader, k, node'; repeat split; assumption).
  destruct (map _ (pf_schema reader) !! Z.to_nat idx); [| exact Hfound].
  repeat case_decide; exact Hfound.
Qed.

End Resolution.

(** ** The writer at the edges *)

Section WriterEdges.
Context {codes : ArrowFunctions_h}.

(** A call of the writer that returns 0 without a message has opened the
    file, run the loop to its end, written the footer and closed the
    stream. *)
Lemma write_success_inv dev w fuel filename chpl_arr colnum dsetname
    numelems rowGroupSize dtype w' :
  cpp_writeColumnToParquet dev w fuel filename chpl_arr colnum dsetname
    numelems rowGroupSize dtype = Returned (0, w', None) ->
  exists row_groups,
    write_row_groups fuel dev chpl_arr rowGroupSize 0 numelems [] = Returned row_groups
    /\ w' = put_file w filename
              (ParquetData
                 (close_file
                    [{| node_name := dsetname; physical_type := parquet_Type.INT64;
                        converted_type :=
                          if dtype =? 1 then ConvertedType.NONE
                          else ConvertedType.UINT_64 |}]
                    row_groups)).
Proof.
  unfold cpp_writeColumnToParquet.
  destruct (out_open dev filename); [| discriminate]. cbn [PARQUET_ASSIGN_OR_THROW bind].
  destruct (write_row_groups fuel dev chpl_arr rowGroupSize 0 numelems [])
    as [row_groups | | |]; try discriminate. cbn [bind].
  destruct (writer_close dev); [| discriminate]. cbn [or_throw bind].
  destruct (out_close dev); [| discriminate].
  intros [= <-]. exists row_groups. split; [reflexivity |].
  destruct (dtype =? 1); reflexivity.
Qed.

Lemma getType_written_file w filename dsetname dtype row_groups colname :
  cpp_getType
    (put_file w filename
       (ParquetData
          (close_file
             [{| node_name := dsetname; physical_type := parquet_Type.INT64;
                 converted_type :=
                   if dtype =? 1 then ConvertedType.NONE else ConvertedType.UINT_64 |}]
             row_groups)))
    filename colname
  = if decide (dsetname = colname)
    then (if dtype =? 1 then ARROWINT64 else ARROWUINT64, None)
    else (ARROWERROR,
          Some ("Dataset: " +:+ colname +:+ " does not exist in file: " +:+ filename)).
Proof.
  unfold cpp_getType, ReadableFile_Open, put_file. cbn [files].
  rewrite lookup_insert_eq. cbn [arrow_OpenFile]. cbv zeta.
  unfold GetFieldIndex, GetSchema, close_file. simpl.
  destruct (decide (dsetname = colname)) as [Hsame | Hother]; [| reflexivity].
  simpl. unfold arrow_type_of. simpl. destruct (dtype =? 1); reflexivity.
Qed.

(** X10. After a call of the writer that succeeds, the file has one
    column, called [dsetname] whatever [colnum] was: [cpp_getType] resolves
    it to the code of Int64 when [dtype] is 1 and to the code of UInt64 for
    every other [dtype], and reports any other name as not existing. *)
Theorem getType_after_write dev w fuel filename chpl_arr colnum dsetname
    numelems rowGroupSize dtype w' colname :
  cpp_writeColumnToParquet dev w fuel filename chpl_arr colnum dsetname
    numelems rowGroupSize dtype = Returned (0, w', None) ->
  colname <> dsetname ->
  cpp_getType w' filename dsetname = (if dtype =? 1 then ARROWINT64 else ARROWUINT64, None)
  /\ cpp_getType w' filename colname
     = (ARROWERROR,
        Some ("Dataset: " +:+ colname +:+ " does not exist in file: " +:+ filename)).
Proof.
  intros (row_groups & _ & ->)%write_success_inv Hother.
  rewrite !getType_written_file.
  rewrite decide_True by reflexivity. rewrite decide_False by congruence.
  split; reflexivity.
Qed.

(** X13. Nothing to write: for [numelems <= 0] (a negative count
    included) the loop is not entered, whatever [rowGroupSize] and the array
    are; the call leaves a Parquet file without row groups, for which
    [c_getNumRows] returns 0 and from which [c_readColumnByName] reads no
    value, returning 0 with the caller's array as it was. *)
Theorem write_nothing_gives_empty_file dev w fuel filename chpl_arr colnum dsetname
    numelems rowGroupSize dtype :
  numelems <= 0 ->
  (1 <= fuel)%nat ->
  out_open dev filename = StatusOK ->
  writer_close dev = StatusOK ->
  out_close dev = StatusOK ->
  exists w',
    c_writeColumnToParquet dev w fuel filename chpl_arr colnum dsetname
      numelems rowGroupSize dtype = Returned (0, w', None)
    /\ c_getNumRows w' filename = (0, None)
    /\ forall fuel' (arr : list Z) numElems batchSize,
         c_readColumnByName w' fuel' filename arr dsetname numElems batchSize
         = Returned (0, arr, None).
Proof.
  intros HN Hfuel Hopen Hfooter Hclose.
  destruct fuel as [| fuel]; [lia |].
  eexists. split; [| split].
  - unfold c_writeColumnToParquet, cpp_writeColumnToParquet.
    rewrite Hopen. cbn [PARQUET_ASSIGN_OR_THROW bind write_row_groups].
    destruct (Z.ltb_spec 0 numelems) as [? | _]; [lia |].
    cbn [bind]. rewrite Hfooter, Hclose. cbn [or_throw bind].
    assert ((if dtype =? 1
             then [{| node_name := dsetname; physical_type := parquet_Type.INT64;
                      converted_type := ConvertedType.NONE |}]
             else [{| node_name := dsetname; physical_type := parquet_Type.INT64;
                      converted_type := ConvertedType.UINT_64 |}])
            = [{| node_name := dsetname; physical_type := parquet_Type.INT64;
                  converted_type :=
                    if dtype =? 1 then ConvertedType.NONE else ConvertedType.UINT_64 |}])
      as -> by (destruct (dtype =? 1); reflexivity).
    reflexivity.
  - unfold c_getNumRows, cpp_getNumRows, ReadableFile_Open, put_file. cbn [files].
    rewrite lookup_insert_eq. reflexivity.
  - intros fuel' arr numElems batchSize.
    unfold c_readColumnByName, cpp_readColumnByName.
    rewrite getType_written_file, decide_True by reflexivity.
    assert (((if dtype =? 1 then ARROWINT64 else ARROWUINT64) =? ARROWINT64)
            || ((if dtype =? 1 then ARROWINT64 else ARROWUINT64) =? ARROWINT32)
            || ((if dtype =? 1 then ARROWINT64 else ARROWUINT64) =? ARROWUINT64) = true)
      as -> by (destruct (dtype =? 1); rewrite Z.eqb_refl, ?orb_true_r; reflexivity).
    unfold ParquetFileReader_OpenFile, ReadableFile_Open, put_file. cbn [files].
    rewrite lookup_insert_eq. reflexivity.
Qed.

(** X8. The one failure that the writer reports through its result: when
    the file was opened, every row group written and the footer written, but
    the output stream cannot be closed, the call returns [ARROWERROR] and
    hands the message of the status to the caller. *)
Theorem write_close_failure_reported dev w fuel filename chpl_arr colnum dsetname
    numelems rowGroupSize dtype message :
  out_open dev filename = StatusOK ->
  (forall k, encode_status dev k = StatusOK) ->
  writer_close dev = StatusOK ->
  out_close dev = StatusError message ->
  1 <= rowGroupSize ->
  0 <= numelems <= Z.of_nat (length chpl_arr) ->
  numelems <= INT64_MAX ->
  (Z.to_nat numelems < fuel)%nat ->
  exists w',
    c_writeColumnToParquet dev w fuel filename chpl_arr colnum dsetname
      numelems rowGroupSize dtype = Returned (ARROWERROR, w', Some message).
Proof.
  intros Hopen Hencode Hfooter Hclose HR HN Hmax Hfuel.
  destruct (write_row_groups_partitioned dev chpl_arr rowGroupSize Hencode HR fuel
              0 numelems []) as (row_groups & Hrun & _); try lia.
  eexists. unfold c_writeColumnToParquet.
  apply (write_close_failure_returned dev w fuel filename chpl_arr colnum dsetname
           numelems rowGroupSize dtype row_groups message); assumption.
Qed.

(** The loop of the writer, asked for more values than the array holds,
    reads beyond the end of the array. *)
Lemma write_row_groups_overflow dev (chpl_ptr : list Z) rowGroupSize (fuel : nat) :
  (forall k, encode_status dev k = StatusOK) ->
  1 <= rowGroupSize ->
  forall (i numLeft : Z) (written : list RowGroup),
    0 <= i <= Z.of_nat (length chpl_ptr) ->
    Z.of_nat (length chpl_ptr) < i + numLeft ->
    i + numLeft <= INT64_MAX ->
    (Z.to_nat numLeft < fuel)%nat ->
    write_row_groups fuel dev chpl_ptr rowGroupSize i numLeft written = Undefined.
Proof.
  intros Hencode HR.
  induction fuel as [| fuel IH]; intros i numLeft written Hi Hshort Hmax Hfuel; [lia |].
  simpl. destruct (Z.ltb_spec 0 numLeft) as [Hpos | ?]; [| lia].
  destruct (next_batchSize_bounds rowGroupSize numLeft) as [Hbs _]; [lia .. |].
  set (batchSize := next_batchSize rowGroupSize numLeft) in *.
  unfold WriteBatch.
  destruct (Z.leb_spec batchSize 0) as [? | _]; [lia |].
  destruct (Z.leb_spec 0 i) as [_ | ?]; [| lia].
  destruct (Z.leb_spec (i + batchSize) (Z.of_nat (length chpl_ptr))) as [Hin | Hout];
    [| reflexivity].
  rewrite Hencode. simpl.
  pose proof Hmax as Hmax'. unfold INT64_MAX in Hmax'.
  rewrite !checked64_in by lia. simpl.
  apply IH; lia.
Qed.

(** X9. The writer trusts [numelems]: on an array with fewer elements
    than [numelems] (and a positive row group size) the call reads beyond
    the end of the array, which is undefined behaviour. *)
Theorem write_from_short_array_undefined dev w fuel filename (chpl_arr : list Z)
    colnum dsetname numelems rowGroupSize dtype :
  out_open dev filename = StatusOK ->
  (forall k, encode_status dev k = StatusOK) ->
  1 <= rowGroupSize ->
  Z.of_nat (length chpl_arr) < numelems ->
  numelems <= INT64_MAX ->
  (Z.to_nat numelems < fuel)%nat ->
  cpp_writeColumnToParquet dev w fuel filename chpl_arr colnum dsetname
    numelems rowGroupSize dtype = Undefined.
Proof.
  intros Hopen Hencode HR Hshort Hmax Hfuel.
  unfold cpp_writeColumnToParquet. rewrite Hopen. cbn [PARQUET_ASSIGN_OR_THROW bind].
  rewrite (write_row_groups_overflow dev chpl_arr rowGroupSize fuel Hencode HR
             0 numelems []) by lia.
  reflexivity.
Qed.

End WriterEdges.

Section UnsupportedType.
Context {codes : ArrowFunctions_h}.

(** X14. A column whose Arrow type is none of INT64, INT32, UINT64 and
    TIMESTAMP (a DOUBLE or a STRING column, say): [cpp_getType] returns
    [ARROWUNDEFINED] and leaves no message, and so does
    [cpp_readColumnByName] (when [ARROWUNDEFINED] is not the code of an
    integer type), without touching the caller's array. *)
Theorem read_column_of_other_type w fuel filename colname reader (idx : nat) node
    (chpl_arr : list Z) numElems batchSize :
  files w !! filename = Some (ParquetData reader) ->
  GetFieldIndex (GetSchema reader) colname = Z.of_nat idx ->
  pf_schema reader !! idx = Some node ->
  arrow_type_of node <> arrow_Type.INT64 ->
  arrow_type_of node <> arrow_Type.INT32 ->
  arrow_type_of node <> arrow_Type.UINT64 ->
  arrow_type_of node <> arrow_Type.TIMESTAMP ->
  ARROWUNDEFINED <> ARROWINT64 ->
  ARROWUNDEFINED <> ARROWINT32 ->
  ARROWUNDEFINED <> ARROWUINT64 ->
  cpp_getType w filename colname = (ARROWUNDEFINED, None)
  /\ cpp_readColumnByName w fuel filename chpl_arr colname numElems batchSize
     = Returned (ARROWUNDEFINED, chpl_arr, None).
Proof.
  intros Hfile Hidx Hnode Ht64 Ht32 Htu64 Htts H64 H32 Hu64.
  assert (cpp_getType w filename colname = (ARROWUNDEFINED, None)) as Htype.
  { rewrite (cpp_getType_found w filename colname reader (Z.of_nat idx) node);
      rewrite ?Nat2Z.id; try assumption; [| lia].
    repeat case_decide; try contradiction. reflexivity. }
  split; [exact Htype |].
  unfold cpp_readColumnByName. rewrite Htype.
  destruct (Z.eqb_spec ARROWUNDEFINED ARROWINT64); [contradiction |].
  destruct (Z.eqb_spec ARROWUNDEFINED ARROWINT32); [contradiction |].
  destruct (Z.eqb_spec ARROWUNDEFINED ARROWUINT64); [contradiction |].
  reflexivity.
Qed.

End UnsupportedType.

(** ** The scratch array of the INT32 branch *)

(** From [2^62] values of four bytes on, the size wraps around. *)
Lemma scratch_size_wraps (batchSize : Z) :
  2 ^ 62 <= batchSize <= INT64_MAX ->
  scratch_size batchSize = (batchSize - 2 ^ 62) * sizeof_int32_t.
Proof.
  unfold INT64_MAX. intros Hbig. unfold scratch_size, as_size_t, sizeof_int32_t.
  rewrite (Z.mod_small batchSize) by lia.
  symmetry. apply (Z.mod_unique _ _ 1); lia.
Qed.

Section ScratchArray.
Context {codes : ArrowFunctions_h}.

(** The body of the row group loop for an INT32 column. *)
Lemma read_row_group_int32_loop w fuel (schema : list PrimitiveNode) filename colname
    batchSize (idx : nat) node (rg : RowGroup) (chunk : list (list Z)) chpl_arr i :
  ARROWINT32 <> ARROWINT64 ->
  ARROWINT32 <> ARROWUINT64 ->
  ColumnIndex schema colname = Z.of_nat idx ->
  schema !! idx = Some node ->
  physical_type node = parquet_Type.INT32 ->
  rg_columns rg !! idx = Some chunk ->
  read_row_group w fuel ARROWINT32 schema filename colname batchSize rg chpl_arr i
  = (do written <~
       batches_loop as_int32 (deliver_int32 (malloc w (scratch_size batchSize)))
         fuel batchSize chunk chpl_arr i in
     Returned (inr written)).
Proof.
  intros Hne64 Hneu64 Hidx Hnode Hpt Hchunk.
  unfold read_row_group. rewrite Hidx.
  destruct (Z.ltb_spec (Z.of_nat idx) 0) as [? | _]; [lia |].
  unfold RowGroup_Column. rewrite Nat2Z.id, Hnode, Hchunk, Hpt. cbn [bind].
  destruct (Z.eqb_spec ARROWINT32 ARROWINT64) as [? | _]; [contradiction |].
  destruct (Z.eqb_spec ARROWINT32 ARROWUINT64) as [? | _]; [contradiction |].
  unfold static_cast_reader. cbn [cr_type cr_pages].
  rewrite decide_True by reflexivity. cbn [bind]. cbv zeta.
  now rewrite read_batches_int32_loop.
Qed.

(** The first batch of a chunk that holds a value, when there is no
    bringing it to the array. *)
Lemma batches_loop_first_batch_undefined decode deliver fuel batchSize
    (reader : list (list Z)) chpl_ptr i :
  (forall (chpl_ptr : list Z) (i : Z) (values : list Z),
     values <> [] -> deliver chpl_ptr i values = Undefined) ->
  1 <= batchSize ->
  concat reader <> [] ->
  batches_loop decode deliver (S fuel) batchSize reader chpl_ptr i = Undefined.
Proof.
  intros Hdeliver Hbs Hsome. simpl. unfold HasNext.
  pose proof (skip_exhausted_concat reader) as Hcat.
  destruct (skip_exhausted reader) as [| page pages] eqn:Hskip;
    [simpl in Hcat; congruence |].
  destruct (skip_exhausted_cons _ _ _ Hskip) as [Hpage Hidem].
  unfold ReadBatch. rewrite Hidem.
  destruct (Z.ltb_spec batchSize 0) as [? | _]; [lia |].
  cbn [bind]. rewrite Hdeliver; [reflexivity |].
  destruct page as [| word page]; [congruence |].
  replace (Z.to_nat (Z.min batchSize (Z.of_nat (length (word :: page)))))
    with (S (Z.to_nat (Z.min batchSize (Z.of_nat (length (word :: page))) - 1)))
    by (simpl length; lia).
  discriminate.
Qed.

(** X15. The scratch array of the INT32 branch is [malloc]ed with a size
    that wraps around: for [batchSize >= 2^62] it has room for
    [batchSize - 2^62] values only, and a first page with more values than
    that makes [ReadBatch] write beyond it, which is undefined behaviour. *)
Theorem read_int32_scratch_overrun w fuel filename colname numElems batchSize reader
    (idx : nat) node (rg : RowGroup) (row_groups : list RowGroup)
    (page : list Z) (pages : list (list Z)) (chpl_arr : list Z) :
  ARROWINT32 <> ARROWINT64 ->
  ARROWINT32 <> ARROWUINT64 ->
  files w !! filename = Some (ParquetData reader) ->
  GetFieldIndex (GetSchema reader) colname = Z.of_nat idx ->
  pf_schema reader !! idx = Some node ->
  arrow_type_of node = arrow_Type.INT32 ->
  pf_row_groups reader = rg :: row_groups ->
  rg_columns rg !! idx = Some (page :: pages) ->
  2 ^ 62 <= batchSize <= INT64_MAX ->
  batchSize - 2 ^ 62 < Z.of_nat (length page) ->
  (1 <= fuel)%nat ->
  cpp_readColumnByName w fuel filename chpl_arr colname numElems batchSize = Undefined.
Proof.
  intros Hne64 Hneu64 Hfile Hidx Hnode Hty Hgroups Hchunk Hbig Hpage Hfuel.
  destruct (GetFieldIndex_found reader colname (Z.of_nat idx) Hidx) as (_ & Hcol & _);
    [lia |].
  destruct (arrow_type_physical node) as (_ & _ & Hphys).
  unfold cpp_readColumnByName.
  rewrite (cpp_getType_found w filename colname reader (Z.of_nat idx) node);
    rewrite ?Nat2Z.id; try assumption; [| lia].
  rewrite Hty. cbn.
  rewrite Z.eqb_refl, orb_true_r. cbn [orb].
  unfold ParquetFileReader_OpenFile, ReadableFile_Open. rewrite Hfile.
  cbn [arrow_OpenFile bind]. rewrite Hgroups. cbn [read_row_groups].
  rewrite (read_row_group_int32_loop w fuel (pf_schema reader) filename colname batchSize
             idx node rg (page :: pages)) by auto.
  destruct fuel as [| fuel]; [lia |].
  unfold INT64_MAX in Hbig.
  assert (0 < length page)%nat as Hlen by lia.
  destruct page as [| word page]; [simpl in Hlen; lia |].
  simpl batches_loop. unfold ReadBatch. cbn [skip_exhausted].
  destruct (Z.ltb_spec batchSize 0) as [? | _]; [lia |].
  cbn [bind]. unfold deliver_int32.
  set (n := Z.to_nat (Z.min batchSize (Z.of_nat (length (word :: page))))).
  assert (batchSize - 2 ^ 62 < Z.of_nat n <= Z.of_nat (length (word :: page))) as Hn
    by (unfold n; lia).
  assert (store_scratch (malloc w (scratch_size batchSize))
            (map as_int32 (take n (word :: page))) = Undefined) as ->; [| reflexivity].
  unfold store_scratch.
  destruct (map as_int32 (take n (word :: page))) as [| v values] eqn:Hvalues.
  - apply (f_equal length) in Hvalues. rewrite length_map, length_take in Hvalues.
    simpl in Hvalues. lia.
  - rewrite <- Hvalues, length_map, length_take. unfold malloc.
    destruct (malloc_succeeds w (scratch_size batchSize)); [| reflexivity].
    rewrite scratch_size_wraps by (unfold INT64_MAX; lia).
    destruct (Z.leb_spec (Z.of_nat (n `min` length (word :: page)) * sizeof_int32_t)
                ((batchSize - 2 ^ 62) * sizeof_int32_t)) as [Hfit | _]; [| reflexivity].
    unfold sizeof_int32_t in Hfit. lia.
Qed.

(** X16. The result of [malloc] is not checked: when it finds no block
    for the scratch array, reading an INT32 column that holds a value writes
    through the null pointer, which is undefined behaviour. *)
Theorem read_int32_without_scratch w fuel filename colname numElems batchSize reader
    (idx : nat) node (chpl_arr : list Z) :
  ARROWINT32 <> ARROWINT64 ->
  ARROWINT32 <> ARROWUINT64 ->
  files w !! filename = Some (ParquetData reader) ->
  GetFieldIndex (GetSchema reader) colname = Z.of_nat idx ->
  pf_schema reader !! idx = Some node ->
  arrow_type_of node = arrow_Type.INT32 ->
  Forall (fun rg => exists chunk : list (list Z), rg_columns rg !! idx = Some chunk)
    (pf_row_groups reader) ->
  column_words idx (pf_row_groups reader) <> [] ->
  1 <= batchSize ->
  malloc_succeeds w (scratch_size batchSize) = false ->
  (1 <= fuel)%nat ->
  cpp_readColumnByName w fuel filename chpl_arr colname numElems batchSize = Undefined.
Proof.
  intros Hne64 Hneu64 Hfile Hidx Hnode Hty Hchunks Hsome Hbs Hmalloc Hfuel.
  destruct (GetFieldIndex_found reader colname (Z.of_nat idx) Hidx) as (_ & Hcol & _);
    [lia |].
  destruct (arrow_type_physical node) as (_ & _ & Hphys).
  unfold cpp_readColumnByName.
  rewrite (cpp_getType_found w filename colname reader (Z.of_nat idx) node);
    rewrite ?Nat2Z.id; try assumption; [| lia].
  rewrite Hty. cbn.
  rewrite Z.eqb_refl, orb_true_r. cbn [orb].
  unfold ParquetFileReader_OpenFile, ReadableFile_Open. rewrite Hfile.
  cbn [arrow_OpenFile bind].
  destruct fuel as [| fuel]; [lia |].
  revert Hsome Hchunks. generalize (pf_row_groups reader) as row_groups.
  intros row_groups Hsome Hchunks.
  enough (forall (arr : list Z) (i : Z),
            read_row_groups w (S fuel) ARROWINT32 (pf_schema reader) filename colname
              batchSize row_groups arr i None = Undefined) as Hall by apply Hall.
  induction Hchunks as [| rg row_groups [chunk Hchunk] _ IH]; intros arr i;
    [now contradiction Hsome |].
  unfold column_words in *. cbn [map concat] in *.
  assert (chunk_words idx rg = concat chunk) as Hwords
    by (unfold chunk_words; now rewrite Hchunk).
  rewrite Hwords in *.
  cbn [read_row_groups].
  rewrite (read_row_group_int32_loop w (S fuel) (pf_schema reader) filename colname
             batchSize idx node rg chunk) by auto.
  destruct (concat chunk) as [| word words] eqn:Hchunk_words.
  - rewrite batches_loop_no_values by assumption. cbn [bind]. apply IH. exact Hsome.
  - rewrite batches_loop_first_batch_undefined; [reflexivity | | exact Hbs |].
    + intros buf k values Hvalues. unfold deliver_int32, malloc. rewrite Hmalloc.
      destruct values; [congruence | reflexivity].
    + rewrite Hchunk_words. discriminate.
Qed.

End ScratchArray.

(** ** The further properties at concrete inputs *)

(** The column ["k"] of a file with two columns and two row groups. *)
Lemma read_int64_column_witness :
  cpp_readColumnByName (codes := example_header)
    (world_of "k.parquet" (ParquetData int64_file)) 5 "k.parquet"
    ([0; 0; 0; 0] ++ [9]) "k" 4 2
  = Returned (0, [-1; 3; 4; 5] ++ [9], None).
Proof.
  apply (@read_int64_column example_header
           (world_of "k.parquet" (ParquetData int64_file)) 5%nat "k.parquet" "k" 4 2
           int64_file 0%nat
           {| node_name := "k"; physical_type := parquet_Type.INT64;
              converted_type := ConvertedType.NONE |}
           [0; 0; 0; 0] [9]).
  - reflexivity.
  - reflexivity.
  - reflexivity.
  - reflexivity.
  - repeat constructor; simpl; eauto.
  - lia.
  - reflexivity.
  - unfold INT64_MAX. simpl. lia.
  - simpl. lia.
Defined.

(** An INT32 column read value by value and three values at a time. *)
Lemma read_result_independent_of_batchSize_witness :
  cpp_readColumnByName (codes := example_header)
    (world_of "i.parquet" (ParquetData int32_file)) 5 "i.parquet"
    ([0; 0; 0; 0] ++ [5]) "a" 4 1
  = cpp_readColumnByName (codes := example_header)
      (world_of "i.parquet" (ParquetData int32_file)) 5 "i.parquet"
      ([0; 0; 0; 0] ++ [5]) "a" 4 3.
Proof.
  apply (@read_result_independent_of_batchSize example_header
           (world_of "i.parquet" (ParquetData int32_file)) 5%nat "i.parquet" "a" 4 1 3
           int32_file 0%nat
           {| node_name := "a"; physical_type := parquet_Type.INT32;
              converted_type := ConvertedType.NONE |}
           [0; 0; 0; 0] [5]).
  - reflexivity.
  - reflexivity.
  - reflexivity.
  - right. right. repeat split; discriminate.
  - repeat constructor; simpl; eauto.
  - lia.
  - lia.
  - reflexivity.
  - unfold INT64_MAX. simpl. lia.
  - simpl. lia.
Defined.

(** Four values for an array of two elements, with [numElems = 2]. *)
Lemma read_into_short_array_undefined_witness :
  cpp_readColumnByName (codes := example_header)
    (world_of "k.parquet" (ParquetData int64_file)) 5 "k.parquet" [0; 0] "k" 2 2
  = Undefined.
Proof.
  apply (@read_into_short_array_undefined example_header
           (world_of "k.parquet" (ParquetData int64_file)) 5%nat "k.parquet" "k" 2 2
           int64_file 0%nat
           {| node_name := "k"; physical_type := parquet_Type.INT64;
              converted_type := ConvertedType.NONE |}
           [0; 0]).
  - reflexivity.
  - reflexivity.
  - reflexivity.
  - left. reflexivity.
  - repeat constructor; simpl; eauto.
  - lia.
  - simpl. lia.
  - unfold INT64_MAX. simpl. lia.
  - simpl. lia.
Defined.

(** An INT32 column read with a batch size of 0. *)
Lemma read_with_batchSize_zero_never_returns_witness :
  cpp_readColumnByName (codes := example_header)
    (world_of "i.parquet" (ParquetData int32_file)) 1000 "i.parquet"
    [0; 0; 0; 0] "a" 4 0
  = Diverged.
Proof.
  apply (@read_with_batchSize_zero_never_returns example_header
           (world_of "i.parquet" (ParquetData int32_file)) 1000%nat "i.parquet" "a" 4
           int32_file 0%nat
           {| node_name := "a"; physical_type := parquet_Type.INT32;
              converted_type := ConvertedType.NONE |}
           [0; 0; 0; 0]).
  - reflexivity.
  - reflexivity.
  - reflexivity.
  - right. right. repeat split; discriminate.
  - repeat constructor; simpl; eauto.
  - discriminate.
Defined.

(** A path at which there is no file. *)
Lemma unreadable_file_reported_witness :
  c_getNumRows (codes := example_header) empty_world "missing.parquet"
  = (-1, Some "Failed to open local file")
  /\ c_getType (codes := example_header) empty_world "missing.parquet" "a"
     = (-1, Some "Failed to open local file")
  /\ c_readColumnByName (codes := example_header) empty_world 3 "missing.parquet"
       [1; 2] "a" 2 1
     = Returned (-1, [1; 2], Some "Failed to open local file").
Proof.
  apply (@unreadable_file_reported example_header empty_world 3%nat "missing.parquet"
           "a" [1; 2] 2 1 "Failed to open local file").
  - left. split; reflexivity.
  - discriminate.
  - discriminate.
  - discriminate.
Defined.

(** The column ["b"] of a file whose only column is ["a"]. *)
Lemma read_absent_column_witness :
  cpp_readColumnByName (codes := example_header)
    (world_of "i.parquet" (ParquetData int32_file)) 3 "i.parquet" [1; 2] "b" 2 1
  = Returned (-1, [1; 2], Some "Dataset: b does not exist in file: i.parquet").
Proof.
  apply (@read_absent_column example_header
           (world_of "i.parquet" (ParquetData int32_file)) 3%nat "i.parquet" "b"
           int32_file [1; 2] 2 1).
  - reflexivity.
  - simpl. intros Hin. apply list_elem_of_singleton in Hin. discriminate.
  - discriminate.
  - discriminate.
  - discriminate.
Defined.

(** The patterns of [2^64-1] and 5, written as unsigned and read back. *)
Lemma write_read_roundtrip_unsigned_witness :
  exists w',
    cpp_writeColumnToParquet (codes := example_header) sound_output empty_world 3
      "u.parquet" [-1; 5] 0 "col" 2 1 2 = Returned (0, w', None)
    /\ cpp_getType (codes := example_header) w' "u.parquet" "col" = (2, None)
    /\ cpp_readColumnByName (codes := example_header) w' 3 "u.parquet"
         ([0; 0] ++ []) "col" 2 2
       = Returned (0, [-1; 5], None).
Proof.
  apply (@write_read_roundtrip_unsigned example_header sound_output empty_world
           "u.parquet" [-1; 5] 0 "col" 2 1 2 3%nat 3%nat [0; 0] [] 2 2).
  - discriminate.
  - apply sound_output_ok.
  - repeat constructor.
  - simpl. lia.
  - unfold INT64_MAX. lia.
  - lia.
  - lia.
  - reflexivity.
  - simpl. lia.
  - simpl. lia.
Defined.

(** A stream that cannot be closed after three values were written. *)
Lemma write_close_failure_reported_witness :
  exists w',
    c_writeColumnToParquet (codes := example_header) failing_close_output empty_world 4
      "f.parquet" [1; 2; 3] 0 "col" 3 2 1
    = Returned (-1, w', Some "Input/output error").
Proof.
  apply (@write_close_failure_reported example_header failing_close_output empty_world
           4%nat "f.parquet" [1; 2; 3] 0 "col" 3 2 1 "Input/output error").
  - reflexivity.
  - reflexivity.
  - reflexivity.
  - reflexivity.
  - lia.
  - simpl. lia.
  - unfold INT64_MAX. lia.
  - simpl. lia.
Defined.

(** Three values asked from an array of two. *)
Lemma write_from_short_array_undefined_witness :
  cpp_writeColumnToParquet (codes := example_header) sound_output empty_world 4
    "f.parquet" [1; 2] 0 "col" 3 2 1
  = Undefined.
Proof.
  apply (@write_from_short_array_undefined example_header sound_output empty_world
           4%nat "f.parquet" [1; 2] 0 "col" 3 2 1).
  - reflexivity.
  - reflexivity.
  - lia.
  - simpl. lia.
  - unfold INT64_MAX. lia.
  - simpl. lia.
Defined.

(** A column written with [colnum = 7] and [dtype = 0]. *)
Lemma getType_after_write_witness :
  cpp_getType (codes := example_header)
    (world_after
       (cpp_writeColumnToParquet (codes := example_header) sound_output empty_world 4
          "f.parquet" [1; 2; 3] 7 "col" 3 2 0))
    "f.parquet" "col"
  = (2, None)
  /\ cpp_getType (codes := example_header)
       (world_after
          (cpp_writeColumnToParquet (codes := example_header) sound_output empty_world 4
             "f.parquet" [1; 2; 3] 7 "col" 3 2 0))
       "f.parquet" "other"
     = (-1, Some "Dataset: other does not exist in file: f.parquet").
Proof.
  apply (@getType_after_write example_header sound_output empty_world 4%nat
           "f.parquet" [1; 2; 3] 7 "col" 3 2 0).
  - reflexivity.
  - discriminate.
Defined.

(** The timestamp column ["t"], with [ARROWTIMESTAMP = ARROWINT64 = 0]. *)
Lemma read_timestamp_column_as_int64_witness :
  cpp_getType (codes := example_header)
    (world_of "k.parquet" (ParquetData int64_file)) "k.parquet" "t" = (0, None)
  /\ cpp_readColumnByName (codes := example_header)
       (world_of "k.parquet" (ParquetData int64_file)) 5 "k.parquet"
       ([0; 0; 0; 0] ++ []) "t" 4 3
     = Returned (0, [10; 20; 30; 40] ++ [], None).
Proof.
  apply (@read_timestamp_column_as_int64 example_header
           (world_of "k.parquet" (ParquetData int64_file)) 5%nat "k.parquet" "t" 4 3
           int64_file 1%nat
           {| node_name := "t"; physical_type := parquet_Type.INT64;
              converted_type := ConvertedType.TIMESTAMP_MICROS |}
           [0; 0; 0; 0] []).
  - reflexivity.
  - reflexivity.
  - reflexivity.
  - reflexivity.
  - reflexivity.
  - reflexivity.
  - repeat constructor; simpl; eauto.
  - lia.
  - reflexivity.
  - unfold INT64_MAX. simpl. lia.
  - simpl. lia.
Defined.

(** A count of -3 and a row group size of 0. *)
Lemma write_nothing_gives_empty_file_witness :
  exists w',
    c_writeColumnToParquet (codes := example_header) sound_output empty_world 1
      "e.parquet" [] 0 "col" (-3) 0 1 = Returned (0, w', None)
    /\ c_getNumRows (codes := example_header) w' "e.parquet" = (0, None)
    /\ forall fuel' (arr : list Z) numElems batchSize,
         c_readColumnByName (codes := example_header) w' fuel' "e.parquet" arr "col"
           numElems batchSize
         = Returned (0, arr, None).
Proof.
  apply (@write_nothing_gives_empty_file example_header sound_output empty_world 1%nat
           "e.parquet" [] 0 "col" (-3) 0 1).
  - lia.
  - lia.
  - reflexivity.
  - reflexivity.
  - reflexivity.
Defined.

(** A DOUBLE column. *)
Lemma read_column_of_other_type_witness :
  cpp_getType (codes := example_header)
    (world_of "d.parquet" (ParquetData double_file)) "d.parquet" "x" = (-1, None)
  /\ cpp_readColumnByName (codes := example_header)
       (world_of "d.parquet" (ParquetData double_file)) 4 "d.parquet" [1; 2; 3] "x" 3 1
     = Returned (-1, [1; 2; 3], None).
Proof.
  apply (@read_column_of_other_type example_header
           (world_of "d.parquet" (ParquetData double_file)) 4%nat "d.parquet" "x"
           double_file 0%nat
           {| node_name := "x"; physical_type := parquet_Type.DOUBLE;
              converted_type := ConvertedType.NONE |}
           [1; 2; 3] 3 1).
  - reflexivity.
  - reflexivity.
  - reflexivity.
  - discriminate.
  - discriminate.
  - discriminate.
  - discriminate.
  - discriminate.
  - discriminate.
  - discriminate.
Defined.

(** A batch size of [2^62 + 1]: a scratch array of four bytes for a page
    of two values. *)
Lemma read_int32_scratch_overrun_witness :
  cpp_readColumnByName (codes := example_header)
    (world_of "i.parquet" (ParquetData int32_file)) 5 "i.parquet"
    [0; 0; 0; 0] "a" 4 4611686018427387905
  = Undefined.
Proof.
  apply (@read_int32_scratch_overrun example_header
           (world_of "i.parquet" (ParquetData int32_file)) 5%nat "i.parquet" "a" 4
           4611686018427387905 int32_file 0%nat
           {| node_name := "a"; physical_type := parquet_Type.INT32;
              converted_type := ConvertedType.NONE |}
           {| rg_num_rows := 3; rg_columns := [[[4294967295; 7]; [2147483648]]] |}
           [{| rg_num_rows := 1; rg_columns := [[[2147483647]]] |}]
           [4294967295; 7] [[2147483648]] [0; 0; 0; 0]).
  - discriminate.
  - discriminate.
  - reflexivity.
  - reflexivity.
  - reflexivity.
  - reflexivity.
  - reflexivity.
  - reflexivity.
  - unfold INT64_MAX. lia.
  - simpl. lia.
  - lia.
Defined.

(** An INT32 column read when [malloc] finds no block. *)
Lemma read_int32_without_scratch_witness :
  cpp_readColumnByName (codes := example_header)
    (out_of_memory (world_of "i.parquet" (ParquetData int32_file))) 5 "i.parquet"
    [0; 0; 0; 0] "a" 4 2
  = Undefined.
Proof.
  apply (@read_int32_without_scratch example_header
           (out_of_memory (world_of "i.parquet" (ParquetData int32_file))) 5%nat
           "i.parquet" "a" 4 2 int32_file 0%nat
           {| node_name := "a"; physical_type := parquet_Type.INT32;
              converted_type := ConvertedType.NONE |}
           [0; 0; 0; 0]).
  - discriminate.
  - discriminate.
  - reflexivity.
  - reflexivity.
  - reflexivity.
  - reflexivity.
  - repeat constructor; simpl; eauto.
  - discriminate.
  - lia.
  - reflexivity.
  - lia.
Defined.
